(** * Verification of actions/status-checker/src/pull-updater.ts

    A shallow embedding of the pull-request body updater: the change
    filter, the preview-table builder, the body splicer and the top-level
    flow that talks to the hosting API.

    JavaScript strings are sequences of UTF-16 code units; they are
    modelled as lists of code units ([N]).  The string, array and Map
    built-ins the program calls are embedded in [Module JS] following
    ECMA-262.  [String.prototype.localeCompare] is implemented by the host
    (ICU collation) and is taken as a parameter of the development.  The
    library call [getOctokit] and the replies of the hosting API are the
    answers of a host, over which the statements about the flow
    quantify. *)

From Stdlib Require Import String Ascii DecimalString.
From Stdlib Require Import List ZArith NArith Lia Bool Sorted.
Import ListNotations.

Local Open Scope Z_scope.

(* ================================================================== *)
(** ** JavaScript built-ins used by the program *)

Module JS.

Definition codeUnit := N.
Definition jsstring := list codeUnit.

(** An ASCII literal of the source, as code units. *)
Definition lit (s : string) : jsstring :=
  map N_of_ascii (list_ascii_of_string s).

(** The line terminator of a template literal (always U+000A). *)
Definition LF : jsstring := [10%N].

(** Strict equality of two strings: same code units. *)
Fixpoint eqb (a b : jsstring) : bool :=
  match a, b with
  | [], [] => true
  | x :: a', y :: b' => N.eqb x y && eqb a' b'
  | _, _ => false
  end.

(** [s.startsWith(pat)]. *)
Fixpoint startsWith (s pat : jsstring) {struct pat} : bool :=
  match pat, s with
  | [], _ => true
  | _ :: _, [] => false
  | p :: pat', c :: s' => N.eqb p c && startsWith s' pat'
  end.

(** Position of the first occurrence of [pat] in [s]. *)
Fixpoint search (s pat : jsstring) : option nat :=
  if startsWith s pat then Some 0%nat
  else match s with
       | [] => None
       | _ :: s' => option_map S (search s' pat)
       end.

(** Position of the last occurrence of [pat] in [s]. *)
Fixpoint searchLast (s pat : jsstring) : option nat :=
  match s with
  | [] => if startsWith [] pat then Some 0%nat else None
  | _ :: s' =>
      match searchLast s' pat with
      | Some k => Some (S k)
      | None => if startsWith s pat then Some 0%nat else None
      end
  end.

(** [s.indexOf(pat)]: the first position, or -1. *)
Definition indexOf (s pat : jsstring) : Z :=
  match search s pat with
  | Some k => Z.of_nat k
  | None => -1
  end.

(** [s.lastIndexOf(pat)]: the last position, or -1. *)
Definition lastIndexOf (s pat : jsstring) : Z :=
  match searchLast s pat with
  | Some k => Z.of_nat k
  | None => -1
  end.

(** [s.includes(pat)]. *)
Definition includes (s pat : jsstring) : bool :=
  match search s pat with
  | Some _ => true
  | None => false
  end.

(** [s.endsWith(pat)]. *)
Definition endsWith (s pat : jsstring) : bool :=
  (length pat <=? length s)%nat
  && eqb (skipn (length s - length pat) s) pat.

(** Clamping of an index argument to [0 .. s.length]. *)
Definition clamp (i : Z) (len : nat) : nat :=
  Z.to_nat (Z.min (Z.max i 0) (Z.of_nat len)).

(** [s.substring(start, end)]: both indices are clamped, and swapped
    when [start > end]. *)
Definition substring (s : jsstring) (start end_ : Z) : jsstring :=
  let a := clamp start (length s) in
  let b := clamp end_ (length s) in
  let from := Nat.min a b in
  let to := Nat.max a b in
  firstn (to - from) (skipn from s).

(** [s.substring(start)]: up to the end of the string. *)
Definition substringFrom (s : jsstring) (start : Z) : jsstring :=
  substring s start (Z.of_nat (length s)).

(** [s.replace(pat, repl)] with a string pattern: only the first
    occurrence is replaced.  The program only passes the empty
    replacement, so the [$]-patterns of the replacement play no part. *)
Fixpoint replace (s pat repl : jsstring) : jsstring :=
  if startsWith s pat then repl ++ skipn (length pat) s
  else match s with
       | [] => []
       | c :: s' => c :: replace s' pat repl
       end.

(** Conversion of a number to a string in a template literal.  Pull
    numbers are non-negative integers, which print in decimal (below
    10^21, far above any pull number). *)
Definition toString (n : N) : jsstring :=
  lit (NilZero.string_of_uint (N.to_uint n)).

(** [Array.prototype.sort(comparefn)].  ECMA-262 requires the sort to be
    stable; for a consistent comparator every stable sort returns the
    same array, here computed by insertion. [comparefn x y <= 0] keeps
    [x], which came first, in front of [y]. *)
Fixpoint insert (comparefn : jsstring -> jsstring -> Z)
                (x : jsstring) (l : list jsstring) : list jsstring :=
  match l with
  | [] => [x]
  | y :: r =>
      if comparefn x y <=? 0 then x :: y :: r
      else y :: insert comparefn x r
  end.

Fixpoint sort (comparefn : jsstring -> jsstring -> Z)
              (l : list jsstring) : list jsstring :=
  match l with
  | [] => []
  | x :: r => insert comparefn x (sort comparefn r)
  end.

(** [Map<string, string>]: entries in insertion order. *)
Definition Map := list (jsstring * jsstring).

(** [m.set(k, v)]: an existing key keeps its position and takes the new
    value, a new key is appended. *)
Fixpoint Map_set (m : Map) (k v : jsstring) : Map :=
  match m with
  | [] => [(k, v)]
  | (k', v') :: m' =>
      if eqb k' k then (k', v) :: m'
      else (k', v') :: Map_set m' k v
  end.

Definition Map_keys (m : Map) : list jsstring := map fst m.

End JS.

Import JS.

(* ================================================================== *)
(** ** Data model *)

(** Modelled from the spec: the declaration of [ChangeType]
    (types/ChangeType) is not part of the sources at hand.  The spec
    names ADDED, CHANGED, MODIFIED, DELETED and RENAMED and leaves the
    enum open; [UNLISTED] stands for any further member. *)
Inductive ChangeType : Type :=
| ADDED
| CHANGED
| MODIFIED
| DELETED
| RENAMED
| UNLISTED (tag : nat).

Definition ChangeType_eqb (a b : ChangeType) : bool :=
  match a, b with
  | ADDED, ADDED | CHANGED, CHANGED | MODIFIED, MODIFIED
  | DELETED, DELETED | RENAMED, RENAMED => true
  | UNLISTED i, UNLISTED j => Nat.eqb i j
  | _, _ => false
  end.

(** Modelled from the spec: the declarations of [FileChange], [NodeOf],
    [Pull] and [PullRequestDetails] (types/) are not part of the sources
    at hand; the fields are the ones the query requests and the code
    reads. *)
Record FileChange : Type := mkFileChange {
  additions : Z;
  changeType : ChangeType;
  deletions : Z;
  path : jsstring
}.

Record NodeOf (A : Type) : Type := mkNode { node : A }.
Arguments mkNode {A} _.
Arguments node {A} _.

(** [files] and [edges] are what the fetched JSON holds; either can be
    null, which the code tests for ([None] is null). *)
Record FileConnection : Type := mkFiles {
  edges : option (list (NodeOf FileChange))
}.

Record Pull : Type := mkPull {
  body : jsstring;
  changedFiles : Z;
  files : option FileConnection
}.

Record Repository : Type := mkRepository { pullRequest : option Pull }.
Record Data : Type := mkData { repository : option Repository }.
Record PullRequestDetails : Type := mkDetails { data : option Data }.

(** [details.data?.repository?.pullRequest]. *)
Definition pullRequestOf (details : PullRequestDetails) : option Pull :=
  match data details with
  | None => None
  | Some d =>
      match repository d with
      | None => None
      | Some r => pullRequest r
      end
  end.

(* ================================================================== *)
(** ** Effects: the log, the hosting API and exceptions *)

(** What can be thrown: an error raised by the library or the hosting
    API, with its message, or the TypeError of reading a property of
    null. *)
Inductive Error : Type :=
| Failure (message : jsstring)
| TypeError (property : jsstring).

(** [warning] takes a string or an Error; [warningError] is the call
    with an Error, as in the catch clause. *)
Inductive Event : Type :=
| startGroup (name : jsstring)
| endGroup
| warning (message : jsstring)
| warningError (error : Error)
| notice (message : jsstring)
| graphql (name owner : jsstring) (prNumber : N)
| pulls_update (owner repo : jsstring) (pull_number : N) (body : jsstring).

Inductive Outcome (A : Type) : Type :=
| Returns (a : A)
| Throws (e : Error).
Arguments Returns {A} _.
Arguments Throws {A} _.

Record Context : Type := mkContext {
  payload_number : N;
  repo_owner : jsstring;
  repo_repo : jsstring
}.

Record Response : Type := mkResponse { status : Z }.

(** A client of the hosting API, as [getOctokit] returns it: what its
    GraphQL query answers and what an update with a given body answers.
    A reply is a value or a thrown error. *)
Record Octokit : Type := mkOctokit {
  graphqlResult : Outcome (option PullRequestDetails);
  updateResult : jsstring -> Outcome (option Response)
}.

(** What the outside world answers: the workflow context and, for a
    token, the outcome of the library call [getOctokit(token)], which
    throws for an empty token before anything is sent. *)
Record Host : Type := mkHost {
  context : Context;
  getOctokitResult : jsstring -> Outcome Octokit
}.

(** The reply to the query of a run with the given token: there is one
    only if the client could be built. *)
Definition graphqlReply (h : Host) (token : jsstring)
  : Outcome (option PullRequestDetails) :=
  match getOctokitResult h token with
  | Returns octokit => graphqlResult octokit
  | Throws e => Throws e
  end.

(** The reply to an update with the given body. *)
Definition updateReply (h : Host) (token : jsstring) (body : jsstring)
  : Outcome (option Response) :=
  match getOctokitResult h token with
  | Returns octokit => updateResult octokit body
  | Throws e => Throws e
  end.

(** A computation reads the host, extends the log of events and returns
    or throws. *)
Definition M (A : Type) : Type :=
  Host -> list Event -> Outcome A * list Event.

Definition ret {A} (a : A) : M A := fun _ log => (Returns a, log).

Definition bind {A B} (m : M A) (k : A -> M B) : M B :=
  fun h log =>
    match m h log with
    | (Returns a, log') => k a h log'
    | (Throws e, log') => (Throws e, log')
    end.

Definition emit (e : Event) : M unit :=
  fun _ log => (Returns tt, log ++ [e]).

Definition ask : M Host := fun h log => (Returns h, log).

Definition lift {A} (o : Outcome A) : M A := fun _ log => (o, log).

(** [try { body } catch (error) { handler error } finally { fin }]. *)
Definition try_catch_finally {A} (body : M A) (handler : Error -> M A)
                             (fin : M unit) : M A :=
  fun h log =>
    let '(r, log1) :=
      match body h log with
      | (Throws e, l) => handler e h l
      | done => done
      end in
    match fin h log1 with
    | (Returns _, log2) => (r, log2)
    | (Throws e, log2) => (Throws e, log2)
    end.

Notation "x <- m ;; k" := (bind m (fun x => k))
  (at level 61, m at next level, right associativity).
Notation "m ;;; k" := (bind m (fun _ => k))
  (at level 61, right associativity).

(* ================================================================== *)
(** ** The program *)

Definition PREVIEW_TABLE_START : jsstring := lit "<!-- PREVIEW-TABLE-START -->".
Definition PREVIEW_TABLE_END : jsstring := lit "<!-- PREVIEW-TABLE-END -->".

(** U+1F4C4 and U+1F517 as surrogate pairs. *)
Definition PAGE_FACING_UP : jsstring := [0xD83D; 0xDCC4]%N.
Definition LINK_SYMBOL : jsstring := [0xD83D; 0xDD17]%N.

Definition isFileModified (e : NodeOf FileChange) : bool :=
  ChangeType_eqb (changeType (node e)) ADDED
  || ChangeType_eqb (changeType (node e)) CHANGED
  || ChangeType_eqb (changeType (node e)) MODIFIED.

(** The value of the [&&] chain: it stops at the first falsy operand
    and returns it, so it is [false] when a comparison fails, null
    ([None]) when [pr.files] or [pr.files.edges] is null, and otherwise
    the boolean of [some]. *)
Definition isPullRequestModifyingMarkdownFiles (pr : Pull) : option bool :=
  if changedFiles pr >? 0 then
    match files pr with
    | None => None
    | Some connection =>
        match edges connection with
        | None => None
        | Some nodes =>
            if (0 <? length nodes)%nat then
              Some (existsb (fun e => isFileModified e
                                      && endsWith (path (node e)) (lit ".md"))
                            nodes)
            else Some false
        end
    end
  else Some false.

(** [v == false] for a boolean or null [v]: null is not loosely equal
    to false. *)
Definition looseEqualsFalse (v : option bool) : bool :=
  match v with
  | Some b => negb b
  | None => false
  end.

(** The [filter] and [map] of [getModifiedMarkdownFiles] on the array
    of edges. *)
Definition modifiedMarkdownPaths (nodes : list (NodeOf FileChange))
  : list jsstring :=
  map (fun e => path (node e))
      (filter (fun e => endsWith (path (node e)) (lit ".md")
                        && isFileModified e)
              nodes).

(** [pr.files.edges.filter(...).map(...)]: reading [edges] of a null
    [files], or [filter] of a null [edges], throws a TypeError. *)
Definition getModifiedMarkdownFiles (pr : Pull) : Outcome (list jsstring) :=
  match files pr with
  | None => Throws (TypeError (lit "edges"))
  | Some connection =>
      match edges connection with
      | None => Throws (TypeError (lit "filter"))
      | Some nodes => Returns (modifiedMarkdownPaths nodes)
      end
  end.

Definition toLink (prNumber : N) (file : jsstring) : jsstring :=
  let path := replace (replace file (lit "docs/") []) (lit ".md") [] in
  lit "https://review.learn.microsoft.com/en-us/dotnet/" ++ path
  ++ lit "?branch=pr-en-us-" ++ toString prNumber.

(** One row of the table, for an entry [(file, link)] of the map. *)
Definition tableRow (file link : jsstring) : jsstring :=
  lit "| " ++ PAGE_FACING_UP ++ lit " _" ++ file ++ lit "_ | "
  ++ LINK_SYMBOL ++ lit " [Preview: " ++ replace file (lit ".md") []
  ++ lit "](" ++ link ++ lit ") |" ++ LF.

Definition tableHeader : jsstring :=
  (lit "| File | Preview |" ++ LF) ++ (lit "|:--|:--|" ++ LF).

Definition replaceExistingTable (body table : jsstring) : jsstring :=
  let startIndex := indexOf body PREVIEW_TABLE_START in
  if startIndex =? -1 then
    lit "Unable to parse starting index of existing markdown table."
  else
    let endIndex := lastIndexOf body PREVIEW_TABLE_END in
    if endIndex =? -1 then
      lit "Unable to parse ending index of existing markdown table."
    else
      let start :=
        substring body 0 (startIndex + Z.of_nat (length PREVIEW_TABLE_START)) in
      let tail := substringFrom body endIndex in
      start ++ LF ++ LF ++ table ++ LF ++ LF ++ tail.

Definition appendTable (body table : jsstring) : jsstring :=
  body ++ LF ++ LF ++ table.

(** The choice of [updatedBody] in the top-level flow: replace the
    existing preview table, or append the table to the bottom. *)
Definition updatedBodyFor (body table : jsstring) : jsstring :=
  if includes body PREVIEW_TABLE_START && includes body PREVIEW_TABLE_END
  then replaceExistingTable body table
  else appendTable body table.

Section PullUpdater.

(** [a.localeCompare(b)], as the host implements it. *)
Variable localeCompare : jsstring -> jsstring -> Z.

(** The [links] map after the [forEach] over the sorted files. *)
Definition buildLinks (prNumber : N) (files : list jsstring) : Map :=
  fold_left (fun links file => Map_set links file (toLink prNumber file))
            (sort localeCompare files) [].

Definition buildMarkdownPreviewTable (prNumber : N)
                                     (files : list jsstring) : jsstring :=
  let links := buildLinks prNumber files in
  fold_left (fun markdownTable entry =>
               markdownTable ++ tableRow (fst entry) (snd entry))
            links tableHeader.

Definition getOctokit (token : jsstring) : M Octokit :=
  h <- ask ;;
  lift (getOctokitResult h token).

Definition getPullRequest (token : jsstring)
  : M (option PullRequestDetails) :=
  octokit <- getOctokit token ;;
  h <- ask ;;
  emit (graphql (repo_repo (context h)) (repo_owner (context h))
                (payload_number (context h))) ;;;
  lift (graphqlResult octokit).

Definition pulls_update_call (octokit : Octokit) (prNumber : N)
                             (updatedBody : jsstring)
  : M (option Response) :=
  h <- ask ;;
  emit (pulls_update (repo_owner (context h)) (repo_repo (context h))
                     prNumber updatedBody) ;;;
  lift (updateResult octokit updatedBody).

Definition tryUpdatePullRequestBody (token : jsstring) : M unit :=
  try_catch_finally
    (h <- ask ;;
     let prNumber := payload_number (context h) in
     emit (startGroup (lit "Update pull " ++ toString prNumber
                       ++ lit " request body.")) ;;;
     details <- getPullRequest token ;;
     match details with
     | Some details =>
         match pullRequestOf details with
         | Some pr =>
             if changedFiles pr =? 0 then
               emit (warning (lit "No files changed at all..."))
             else if looseEqualsFalse (isPullRequestModifyingMarkdownFiles pr)
             then
               emit (warning (lit "No updated markdown files..."))
             else
               modifiedMarkdownFiles <- lift (getModifiedMarkdownFiles pr) ;;
               let markdownTable :=
                 buildMarkdownPreviewTable prNumber modifiedMarkdownFiles in
               let updatedBody := updatedBodyFor (body pr) markdownTable in
               octokit <- getOctokit token ;;
               response <- pulls_update_call octokit prNumber updatedBody ;;
               match response with
               | Some r =>
                   if status r =? 200
                   then emit (notice (lit "Pull request updated..."))
                   else emit (warning (lit "Unable to update pull request..."))
               | None =>
                   emit (warning (lit "Unable to update pull request..."))
               end
         | None => ret tt
         end
     | None =>
         emit (notice (lit "Unable to get the pull request from GitHub GraphQL"))
     end)
    (fun error => emit (warningError error))
    (emit endGroup).

(** The events of one run, from an empty log. *)
Definition traceOf (token : jsstring) (h : Host) : list Event :=
  snd (tryUpdatePullRequestBody token h []).

End PullUpdater.

(** Whether an event is a call of the pull-request update operation. *)
Definition isUpdate (e : Event) : bool :=
  match e with
  | pulls_update _ _ _ _ => true
  | _ => false
  end.

(* ================================================================== *)
(** ** A reference collation *)

(** Comparison by code units. *)
Fixpoint codeUnitCompare (a b : jsstring) : Z :=
  match a, b with
  | [], [] => 0
  | [], _ :: _ => -1
  | _ :: _, [] => 1
  | x :: a', y :: b' =>
      match N.compare x y with
      | Lt => -1
      | Gt => 1
      | Eq => codeUnitCompare a' b'
      end
  end.

(** Canonical decomposition of U+00E9 (e with acute) into U+0065 U+0301;
    every other code unit is kept. *)
Definition decompose (s : jsstring) : jsstring :=
  flat_map (fun c => if N.eqb c 0xE9 then [0x65; 0x301]%N else [c]) s.

(** A collation that honours the canonical equivalence above, as
    ECMA-262 requires of [localeCompare]: canonically equivalent strings
    compare equal although they are different strings. *)
Definition canonicalCompare (a b : jsstring) : Z :=
  codeUnitCompare (decompose a) (decompose b).

(** Two spellings of the path 'docs/café.md': with the precomposed
    letter U+00E9, and with U+0065 followed by the combining accent
    U+0301.  They are canonically equivalent and different strings. *)
Definition cafe_composed : jsstring :=
  lit "docs/caf" ++ [0xE9]%N ++ lit ".md".
Definition cafe_decomposed : jsstring :=
  lit "docs/caf" ++ [0x65; 0x301]%N ++ lit ".md".

(** A pull request with five files, and hosts that answer with it. *)
Definition samplePull (changed : Z) : Pull :=
  mkPull (lit "Adds two pages.") changed
    (Some (mkFiles (Some
       [ mkNode (mkFileChange 3 MODIFIED 1 (lit "docs/b.md"));
         mkNode (mkFileChange 9 ADDED 0 (lit "docs/a.md"));
         mkNode (mkFileChange 1 CHANGED 1 (lit "docs/b.md"));
         mkNode (mkFileChange 2 MODIFIED 0 (lit "docs/c.txt"));
         mkNode (mkFileChange 0 DELETED 7 (lit "docs/d.md")) ]))).

(** The library's check of the token, with a client for every other
    token. *)
Definition hostWith (octokit : Octokit) : Host :=
  mkHost (mkContext 34443 (lit "dotnet") (lit "docs"))
         (fun token =>
            match token with
            | [] => Throws (Failure (lit "Parameter token or opts.auth is required"))
            | _ :: _ => Returns octokit
            end).

Definition sampleHost (pr : Pull) : Host :=
  hostWith
    (mkOctokit
       (Returns (Some (mkDetails (Some (mkData (Some
          (mkRepository (Some pr))))))))
       (fun _ => Returns (Some (mkResponse 200)))).

Definition sampleBody : jsstring :=
  lit "Intro." ++ PREVIEW_TABLE_START ++ lit "old table"
  ++ PREVIEW_TABLE_END ++ lit "Outro.".

(** A comparator that orders all strings: a total preorder. *)
Record consistentComparator (cmp : jsstring -> jsstring -> Z) : Prop := {
  cmp_refl : forall a, cmp a a = 0;
  cmp_flip : forall a b, cmp a b < 0 <-> cmp b a > 0;
  cmp_trans : forall a b c, cmp a b <= 0 -> cmp b c <= 0 -> cmp a c <= 0
}.

(* ================================================================== *)
(** ** Vocabulary of the statements *)

(** [pat] occurs in [s] at position [k]. *)
Definition occursAt (pat s : jsstring) (k : nat) : Prop :=
  exists pre post, s = pre ++ pat ++ post /\ length pre = k.

Definition contains (pat s : jsstring) : Prop :=
  exists pre post, s = pre ++ pat ++ post.

Definition firstOccurrence (pat s : jsstring) (k : nat) : Prop :=
  occursAt pat s k /\ forall j, occursAt pat s j -> (k <= j)%nat.

Definition lastOccurrence (pat s : jsstring) (k : nat) : Prop :=
  occursAt pat s k /\ forall j, occursAt pat s j -> (j <= k)%nat.

(** [s] ends in [pat]. *)
Definition endsIn (pat s : jsstring) : Prop :=
  exists stem, s = stem ++ pat.

(** [s] without its first occurrence of [pat], by position. *)
Definition cutFirst (pat s : jsstring) : jsstring :=
  match search s pat with
  | Some k => firstn k s ++ skipn (k + length pat) s
  | None => s
  end.

Definition isAdditive (c : ChangeType) : Prop :=
  c = ADDED \/ c = CHANGED \/ c = MODIFIED.

(** The keys of a map filled from a list, in insertion order: every
    string is kept where it first occurs. *)
Definition pushNew (keys : list jsstring) (k : jsstring) : list jsstring :=
  if existsb (fun k' => JS.eqb k' k) keys then keys else keys ++ [k].

Definition distinct (l : list jsstring) : list jsstring :=
  fold_left pushNew l [].

Definition sameSet (l1 l2 : list jsstring) : Prop :=
  forall x, In x l1 <-> In x l2.

(** [a] is not after [b] in the order of the comparator. *)
Definition notAfter (cmp : jsstring -> jsstring -> Z) (a b : jsstring) : Prop :=
  cmp a b <= 0.

(** The rendering of the rows for a list of files. *)
Definition renderRows (prNumber : N) (rows : list jsstring) : jsstring :=
  concat (map (fun file => tableRow file (toLink prNumber file)) rows).

(** The text of the row of a file, character by character. *)
Definition rowText (prNumber : N) (file : jsstring) : jsstring :=
  lit "| " ++ [0xD83D; 0xDCC4]%N ++ lit " _" ++ file ++ lit "_ | "
  ++ [0xD83D; 0xDD17]%N ++ lit " [Preview: " ++ cutFirst (lit ".md") file
  ++ lit "](https://review.learn.microsoft.com/en-us/dotnet/"
  ++ cutFirst (lit ".md") (cutFirst (lit "docs/") file)
  ++ lit "?branch=pr-en-us-" ++ toString prNumber ++ lit ") |" ++ [10%N].

(** Whether an event is the GraphQL query. *)
Definition isQuery (e : Event) : bool :=
  match e with
  | graphql _ _ _ => true
  | _ => false
  end.

(** The events of a run, written out path by path, for comparison with
    the log the flow produces. *)
Definition groupName (h : Host) : jsstring :=
  lit "Update pull " ++ toString (payload_number (context h))
  ++ lit " request body.".

Definition queryEvent (h : Host) : Event :=
  graphql (repo_repo (context h)) (repo_owner (context h))
          (payload_number (context h)).

(** The array of edges a pull request holds; none when [files] or
    [edges] is null. *)
Definition fetchedFiles (pr : Pull) : list (NodeOf FileChange) :=
  match files pr with
  | Some connection =>
      match edges connection with
      | Some nodes => nodes
      | None => []
      end
  | None => []
  end.

(** The body sent on the updating path. *)
Definition sentBody (cmp : jsstring -> jsstring -> Z) (h : Host) (pr : Pull)
  : jsstring :=
  updatedBodyFor (body pr)
    (buildMarkdownPreviewTable cmp (payload_number (context h))
       (modifiedMarkdownPaths (fetchedFiles pr))).

Definition updateEvent (cmp : jsstring -> jsstring -> Z) (h : Host) (pr : Pull)
  : Event :=
  pulls_update (repo_owner (context h)) (repo_repo (context h))
               (payload_number (context h)) (sentBody cmp h pr).

(** What is logged for the reply to the update. *)
Definition updateLog (reply : Outcome (option Response)) : Event :=
  match reply with
  | Returns (Some r) =>
      if status r =? 200 then notice (lit "Pull request updated...")
      else warning (lit "Unable to update pull request...")
  | Returns None => warning (lit "Unable to update pull request...")
  | Throws e => warningError e
  end.

(** The events after the query was answered with a pull request. *)
Definition afterFetch (cmp : jsstring -> jsstring -> Z) (token : jsstring)
                      (h : Host) (pr : Pull) : list Event :=
  if changedFiles pr =? 0 then
    [warning (lit "No files changed at all...")]
  else
    match isPullRequestModifyingMarkdownFiles pr with
    | Some false => [warning (lit "No updated markdown files...")]
    | Some true =>
        [updateEvent cmp h pr;
         updateLog (updateReply h token (sentBody cmp h pr))]
    | None =>
        match files pr with
        | None => [warningError (TypeError (lit "edges"))]
        | Some _ => [warningError (TypeError (lit "filter"))]
        end
    end.

(** The events between the start and the end of the group. *)
Definition runEvents (cmp : jsstring -> jsstring -> Z) (token : jsstring)
                     (h : Host) : list Event :=
  match getOctokitResult h token with
  | Throws e => [warningError e]
  | Returns octokit =>
      queryEvent h
      :: match graphqlResult octokit with
         | Throws e => [warningError e]
         | Returns None =>
             [notice (lit "Unable to get the pull request from GitHub GraphQL")]
         | Returns (Some details) =>
             match pullRequestOf details with
             | None => []
             | Some pr => afterFetch cmp token h pr
             end
         end
  end.

(** A pull request whose only files are a deleted page and a text
    file, and a host whose update fails. *)
Definition quietPull : Pull :=
  mkPull (lit "Removes a page.") 2
    (Some (mkFiles (Some
       [ mkNode (mkFileChange 0 DELETED 7 (lit "docs/d.md"));
         mkNode (mkFileChange 2 MODIFIED 0 (lit "docs/c.txt")) ]))).

(** A pull request that reports three changed files and whose [files]
    is null. *)
Definition nullFilesPull : Pull := mkPull (lit "Adds two pages.") 3 None.

(** The same with a [files] whose [edges] is null. *)
Definition nullEdgesPull : Pull :=
  mkPull (lit "Adds two pages.") 3 (Some (mkFiles None)).

Definition hostReplying (reply : Outcome (option PullRequestDetails)) : Host :=
  hostWith (mkOctokit reply (fun _ => Returns None)).

Definition failingHost (e : Error) : Host :=
  hostWith (mkOctokit (Throws e) (fun _ => Throws e)).

(* ================================================================== *)
(** ** Searching in strings *)

Lemma eqb_eq (a b : jsstring) : JS.eqb a b = true <-> a = b.
Proof.
  revert b; induction a as [|x a IH]; intros [|y b]; simpl;
    try (split; [discriminate | congruence]); try tauto.
  rewrite andb_true_iff, N.eqb_eq, IH.
  split; [intros [-> ->]; reflexivity | intros E; inversion E; auto].
Qed.

Lemma startsWith_iff (s pat : jsstring) :
  startsWith s pat = true <-> exists post, s = pat ++ post.
Proof.
  revert s; induction pat as [|p pat IH]; intros s; simpl.
  - split; [exists s; reflexivity | reflexivity].
  - destruct s as [|c s].
    + split; [discriminate | intros [post E]; discriminate].
    + rewrite andb_true_iff, N.eqb_eq, IH. split.
      * intros [-> [post ->]]. exists post; reflexivity.
      * intros [post E]. inversion E; subst. split; eauto.
Qed.

Lemma occursAt_0 (pat s : jsstring) :
  occursAt pat s 0 <-> startsWith s pat = true.
Proof.
  rewrite startsWith_iff. split.
  - intros (pre & post & E & L). destruct pre; [|discriminate].
    exists post; exact E.
  - intros [post E]. exists [], post. split; [exact E | reflexivity].
Qed.

Lemma occursAt_S (pat : jsstring) c s k :
  occursAt pat (c :: s) (S k) <-> occursAt pat s k.
Proof.
  split.
  - intros (pre & post & E & L). destruct pre as [|c' pre]; [discriminate|].
    simpl in E, L. inversion E; subst. exists pre, post. split; congruence.
  - intros (pre & post & E & L). exists (c :: pre), post.
    simpl; split; congruence.
Qed.

Lemma occursAt_nil (pat : jsstring) k : occursAt pat [] k -> k = 0%nat.
Proof.
  intros (pre & post & E & L). destruct pre; [symmetry; exact L | discriminate].
Qed.

Lemma occursAt_bound (pat s : jsstring) k :
  occursAt pat s k -> (k + length pat <= length s)%nat.
Proof.
  intros (pre & post & -> & <-). rewrite !length_app. lia.
Qed.

Lemma contains_occursAt (pat s : jsstring) :
  contains pat s <-> exists k, occursAt pat s k.
Proof.
  split.
  - intros (pre & post & E). exists (length pre), pre, post. auto.
  - intros (k & pre & post & E & _). exists pre, post. exact E.
Qed.

Lemma search_Some (s pat : jsstring) k :
  search s pat = Some k -> firstOccurrence pat s k.
Proof.
  revert k; induction s as [|c s IH]; intros k; simpl.
  - destruct pat; [|discriminate]. intros [= <-]. split.
    + apply occursAt_0; reflexivity.
    + intros; lia.
  - destruct (startsWith (c :: s) pat) eqn:P.
    + intros [= <-]. split; [apply occursAt_0; exact P | intros; lia].
    + destruct (search s pat) as [k'|] eqn:F; [|discriminate].
      intros [= <-]. destruct (IH k' eq_refl) as [O Min]. split.
      * apply occursAt_S; exact O.
      * intros [|j] Oj.
        -- apply occursAt_0 in Oj; congruence.
        -- apply occursAt_S in Oj. apply Min in Oj. lia.
Qed.

Lemma search_None (s pat : jsstring) :
  search s pat = None -> forall k, ~ occursAt pat s k.
Proof.
  induction s as [|c s IH]; simpl.
  - destruct pat; [discriminate|]. intros _ k O.
    pose proof (occursAt_nil _ _ O); subst.
    apply occursAt_0 in O; discriminate.
  - destruct (startsWith (c :: s) pat) eqn:P; [discriminate|].
    destruct (search s pat) eqn:F; [discriminate|]. intros _ [|k] O.
    + apply occursAt_0 in O; congruence.
    + apply occursAt_S in O. exact (IH eq_refl k O).
Qed.

Lemma searchLast_None (s pat : jsstring) :
  searchLast s pat = None -> forall k, ~ occursAt pat s k.
Proof.
  induction s as [|c s IH]; simpl.
  - destruct pat; [discriminate|]. intros _ k O.
    pose proof (occursAt_nil _ _ O); subst.
    apply occursAt_0 in O; discriminate.
  - destruct (searchLast s pat) eqn:F; [discriminate|].
    destruct (startsWith (c :: s) pat) eqn:P; [discriminate|].
    intros _ [|k] O.
    + apply occursAt_0 in O; congruence.
    + apply occursAt_S in O. exact (IH eq_refl k O).
Qed.

Lemma searchLast_Some (s pat : jsstring) k :
  searchLast s pat = Some k -> lastOccurrence pat s k.
Proof.
  revert k; induction s as [|c s IH]; intros k; simpl.
  - destruct pat; [|discriminate]. intros [= <-]. split.
    + apply occursAt_0; reflexivity.
    + intros j O. apply occursAt_nil in O; lia.
  - destruct (searchLast s pat) as [k'|] eqn:F.
    + intros [= <-]. destruct (IH k' eq_refl) as [O Max]. split.
      * apply occursAt_S; exact O.
      * intros [|j] Oj; [lia|]. apply occursAt_S in Oj. apply Max in Oj. lia.
    + destruct (startsWith (c :: s) pat) eqn:P; [|discriminate].
      intros [= <-]. split; [apply occursAt_0; exact P|].
      intros [|j] Oj; [lia|]. apply occursAt_S in Oj. exfalso.
      exact (searchLast_None _ _ F j Oj).
Qed.

Lemma includes_iff (s pat : jsstring) :
  includes s pat = true <-> contains pat s.
Proof.
  unfold includes. rewrite contains_occursAt.
  destruct (search s pat) as [k|] eqn:F.
  - split; [intros _|reflexivity]. exists k. apply (search_Some _ _ _ F).
  - split; [discriminate|]. intros [k O]. destruct (search_None _ _ F k O).
Qed.

Lemma includes_false_iff (s pat : jsstring) :
  includes s pat = false <-> ~ contains pat s.
Proof.
  rewrite <- includes_iff. destruct (includes s pat); split; congruence.
Qed.

(* ================================================================== *)
(** ** Substrings and the body splicer *)

Lemma substring_prefix (pre post : jsstring) :
  substring (pre ++ post) 0 (Z.of_nat (length pre)) = pre.
Proof.
  unfold substring, clamp. rewrite length_app.
  replace (Z.to_nat (Z.min (Z.max 0 0) _)) with 0%nat by lia.
  replace (Z.to_nat (Z.min (Z.max (Z.of_nat (length pre)) 0) _))
    with (length pre) by lia.
  rewrite Nat.min_0_l, Nat.max_0_l, Nat.sub_0_r. simpl.
  rewrite firstn_app, Nat.sub_diag, firstn_all. simpl. apply app_nil_r.
Qed.

Lemma substringFrom_suffix (pre post : jsstring) :
  substringFrom (pre ++ post) (Z.of_nat (length pre)) = post.
Proof.
  unfold substringFrom, substring, clamp. rewrite length_app.
  replace (Z.to_nat (Z.min (Z.max (Z.of_nat (length pre)) 0) _))
    with (length pre) by lia.
  replace (Z.to_nat (Z.min (Z.max (Z.of_nat (length pre + length post)) 0) _))
    with (length pre + length post)%nat by lia.
  rewrite Nat.min_l, Nat.max_r by lia.
  rewrite skipn_app, skipn_all, Nat.sub_diag. simpl.
  apply firstn_all2. lia.
Qed.

Lemma contains_search (pat s : jsstring) :
  contains pat s -> exists k, search s pat = Some k.
Proof.
  intros C. destruct (search s pat) as [k|] eqn:F; [eauto|].
  apply contains_occursAt in C. destruct C as [k O].
  destruct (search_None _ _ F k O).
Qed.

Lemma contains_searchLast (pat s : jsstring) :
  contains pat s -> exists k, searchLast s pat = Some k.
Proof.
  intros C. destruct (searchLast s pat) as [k|] eqn:F; [eauto|].
  apply contains_occursAt in C. destruct C as [k O].
  destruct (searchLast_None _ _ F k O).
Qed.

(** The value computed on the splicing path, in terms of the two
    positions found. *)
Lemma replaceExistingTable_found (body table : jsstring) i j :
  search body PREVIEW_TABLE_START = Some i ->
  searchLast body PREVIEW_TABLE_END = Some j ->
  replaceExistingTable body table =
    substring body 0 (Z.of_nat i + Z.of_nat (length PREVIEW_TABLE_START))
    ++ [10; 10]%N ++ table ++ [10; 10]%N ++ substringFrom body (Z.of_nat j).
Proof.
  intros Hi Hj. unfold replaceExistingTable, indexOf, lastIndexOf.
  rewrite Hi, Hj.
  destruct (Z.eqb_spec (Z.of_nat i) (-1)) as [E|_]; [lia|].
  destruct (Z.eqb_spec (Z.of_nat j) (-1)) as [E|_]; [lia|].
  reflexivity.
Qed.

Lemma LF_not_in_diagnostics :
  ~ In 10%N (lit "Unable to parse starting index of existing markdown table.")
  /\ ~ In 10%N (lit "Unable to parse ending index of existing markdown table.").
Proof.
  split; intros H;
    assert (E : exists c, In c _ /\ N.eqb 10 c = true)
      by (exists 10%N; split; [exact H | reflexivity]);
    apply existsb_exists in E; vm_compute in E; discriminate.
Qed.

(* ================================================================== *)
(** ** The body splicer: statements *)

(** C1. When the body contains both sentinels, [replaceExistingTable]
    keeps the text up to and including the first occurrence of the start
    sentinel and the text from the last occurrence of the end sentinel
    onward, and puts between them the table with a blank line (two line
    feeds) on each side. *)
Theorem replaceExistingTable_splices (body table : jsstring) :
  contains PREVIEW_TABLE_START body ->
  contains PREVIEW_TABLE_END body ->
  exists pre rest mid post,
    body = pre ++ PREVIEW_TABLE_START ++ rest
    /\ firstOccurrence PREVIEW_TABLE_START body (length pre)
    /\ body = mid ++ PREVIEW_TABLE_END ++ post
    /\ lastOccurrence PREVIEW_TABLE_END body (length mid)
    /\ replaceExistingTable body table =
         (pre ++ PREVIEW_TABLE_START)
         ++ [10; 10]%N ++ table ++ [10; 10]%N
         ++ (PREVIEW_TABLE_END ++ post).
Proof.
  intros CS CE.
  destruct (contains_search _ _ CS) as [i Hi].
  destruct (contains_searchLast _ _ CE) as [j Hj].
  pose proof (search_Some _ _ _ Hi) as FO.
  pose proof (searchLast_Some _ _ _ Hj) as LO.
  destruct (proj1 FO) as (pre & rest & E1 & L1).
  destruct (proj1 LO) as (mid & post & E2 & L2).
  exists pre, rest, mid, post. subst i j.
  repeat split; try assumption; try apply FO; try apply LO.
  rewrite (replaceExistingTable_found _ _ _ _ Hi Hj).
  rewrite <- Nat2Z.inj_add, <- length_app.
  f_equal.
  - rewrite E1 at 1. rewrite app_assoc. apply substring_prefix.
  - do 3 f_equal. rewrite E2 at 1. apply substringFrom_suffix.
Qed.

(** C4. When the body contains neither sentinel, [appendTable] returns
    the body, two line feeds and the table; it is also the body the
    top-level flow sends. *)
Theorem appendTable_concat (body table : jsstring) :
  ~ contains PREVIEW_TABLE_START body ->
  ~ contains PREVIEW_TABLE_END body ->
  appendTable body table = body ++ [10; 10]%N ++ table
  /\ updatedBodyFor body table = body ++ [10; 10]%N ++ table.
Proof.
  intros NS NE. split; [reflexivity|].
  unfold updatedBodyFor.
  apply includes_false_iff in NS. rewrite NS. reflexivity.
Qed.

(** C7. Without the start sentinel [replaceExistingTable] returns the
    text 'Unable to parse starting index of existing markdown table.';
    with the start sentinel but without the end sentinel it returns
    'Unable to parse ending index of existing markdown table.'.  In both
    cases the result is an ordinary string value. *)
Theorem replaceExistingTable_diagnostics (body table : jsstring) :
  (~ contains PREVIEW_TABLE_START body ->
   replaceExistingTable body table =
     lit "Unable to parse starting index of existing markdown table.")
  /\ (contains PREVIEW_TABLE_START body ->
      ~ contains PREVIEW_TABLE_END body ->
      replaceExistingTable body table =
        lit "Unable to parse ending index of existing markdown table.").
Proof.
  split.
  - intros NS. unfold replaceExistingTable, indexOf.
    destruct (search body PREVIEW_TABLE_START) as [i|] eqn:Hi; [|reflexivity].
    exfalso. apply NS, contains_occursAt. exists i.
    apply (search_Some _ _ _ Hi).
  - intros CS NE. destruct (contains_search _ _ CS) as [i Hi].
    unfold replaceExistingTable, indexOf, lastIndexOf. rewrite Hi.
    destruct (Z.eqb_spec (Z.of_nat i) (-1)) as [E|_]; [lia|].
    destruct (searchLast body PREVIEW_TABLE_END) as [j|] eqn:Hj; [|reflexivity].
    exfalso. apply NE, contains_occursAt. exists j.
    apply (searchLast_Some _ _ _ Hj).
Qed.

(** C10. Under the guard of the caller (the body includes both
    sentinels) neither [indexOf] of the start sentinel nor [lastIndexOf]
    of the end sentinel is -1, and [replaceExistingTable] returns the
    spliced body, which is neither of the two diagnostic texts. *)
Theorem guarded_replaceExistingTable_splices (body table : jsstring) :
  includes body PREVIEW_TABLE_START && includes body PREVIEW_TABLE_END = true ->
  indexOf body PREVIEW_TABLE_START <> -1
  /\ lastIndexOf body PREVIEW_TABLE_END <> -1
  /\ replaceExistingTable body table =
       substring body 0 (indexOf body PREVIEW_TABLE_START
                         + Z.of_nat (length PREVIEW_TABLE_START))
       ++ [10; 10]%N ++ table ++ [10; 10]%N
       ++ substringFrom body (lastIndexOf body PREVIEW_TABLE_END)
  /\ replaceExistingTable body table <>
       lit "Unable to parse starting index of existing markdown table."
  /\ replaceExistingTable body table <>
       lit "Unable to parse ending index of existing markdown table.".
Proof.
  intros G. apply andb_true_iff in G. destruct G as [GS GE].
  apply includes_iff in GS, GE.
  destruct (contains_search _ _ GS) as [i Hi].
  destruct (contains_searchLast _ _ GE) as [j Hj].
  pose proof (replaceExistingTable_found body table _ _ Hi Hj) as R.
  unfold indexOf, lastIndexOf. rewrite Hi, Hj.
  assert (L : In 10%N (replaceExistingTable body table)).
  { rewrite R. apply in_or_app. right. left. reflexivity. }
  destruct LF_not_in_diagnostics as [D1 D2].
  repeat split; try lia; try exact R; intros E; rewrite E in L; tauto.
Qed.

(** C5. [isFileModified] is true exactly for the change types ADDED,
    CHANGED and MODIFIED and false for every other one, DELETED and
    RENAMED among them. *)
Theorem isFileModified_iff_additive (e : NodeOf FileChange) :
  (isFileModified e = true <-> isAdditive (changeType (node e)))
  /\ (isFileModified e = false <-> ~ isAdditive (changeType (node e)))
  /\ (forall a d p,
        isFileModified (mkNode (mkFileChange a DELETED d p)) = false
        /\ isFileModified (mkNode (mkFileChange a RENAMED d p)) = false).
Proof.
  unfold isFileModified, isAdditive.
  destruct e as [[a c d p]]; simpl.
  repeat split; destruct c; simpl; intros;
    try reflexivity; try discriminate; try tauto;
    try (intuition discriminate).
Qed.

(* ================================================================== *)
(** ** Sorting, the map of links and the rendered rows *)

Lemma isFileModified_true (e : NodeOf FileChange) :
  isFileModified e = true <-> isAdditive (changeType (node e)).
Proof.
  unfold isFileModified, isAdditive.
  destruct (changeType (node e)); simpl; intuition discriminate.
Qed.

Lemma endsWith_iff (s pat : jsstring) :
  endsWith s pat = true <-> endsIn pat s.
Proof.
  unfold endsWith, endsIn. rewrite andb_true_iff, Nat.leb_le, eqb_eq. split.
  - intros [L E]. exists (firstn (length s - length pat) s).
    rewrite <- (firstn_skipn (length s - length pat) s) at 1.
    f_equal. exact E.
  - intros [stem ->]. rewrite length_app. split; [lia|].
    replace (length stem + length pat - length pat)%nat
      with (length stem + 0)%nat by lia.
    rewrite skipn_app, skipn_all2 by lia.
    replace (length stem + 0 - length stem)%nat with 0%nat by lia.
    reflexivity.
Qed.

Lemma modifiedMarkdownPaths_In (nodes : list (NodeOf FileChange))
                                (p : jsstring) :
  In p (modifiedMarkdownPaths nodes) <->
  exists e, In e nodes /\ path (node e) = p
            /\ endsIn (lit ".md") p /\ isAdditive (changeType (node e)).
Proof.
  unfold modifiedMarkdownPaths. rewrite in_map_iff. split.
  - intros (e & <- & F). apply filter_In in F. destruct F as [I B].
    apply andb_true_iff in B. destruct B as [B1 B2].
    exists e. repeat split; auto.
    + apply endsWith_iff; exact B1.
    + apply isFileModified_true; exact B2.
  - intros (e & I & <- & E & A). exists e. split; [reflexivity|].
    apply filter_In. split; [exact I|]. apply andb_true_iff. split.
    + apply endsWith_iff; exact E.
    + apply isFileModified_true; exact A.
Qed.

Lemma getModifiedMarkdownFiles_Returns (pr : Pull) (paths : list jsstring) :
  getModifiedMarkdownFiles pr = Returns paths <->
  exists connection nodes,
    files pr = Some connection /\ edges connection = Some nodes
    /\ paths = modifiedMarkdownPaths nodes.
Proof.
  unfold getModifiedMarkdownFiles. split.
  - destruct (files pr) as [connection|]; [|discriminate].
    destruct (edges connection) as [nodes|] eqn:E; [|discriminate].
    intros [= <-]. exists connection, nodes. auto.
  - intros (connection & nodes & -> & -> & ->). reflexivity.
Qed.

Lemma getModifiedMarkdownFiles_fetched (pr : Pull) (paths : list jsstring) :
  getModifiedMarkdownFiles pr = Returns paths ->
  paths = modifiedMarkdownPaths (fetchedFiles pr).
Proof.
  intros G. apply getModifiedMarkdownFiles_Returns in G.
  destruct G as (connection & nodes & F & E & ->).
  unfold fetchedFiles. rewrite F, E. reflexivity.
Qed.

Section Sorting.

Variable cmp : jsstring -> jsstring -> Z.

Lemma insert_In x y l : In y (insert cmp x l) <-> y = x \/ In y l.
Proof.
  induction l as [|z l IH]; simpl.
  - intuition.
  - destruct (cmp x z <=? 0); simpl; rewrite ?IH; intuition.
Qed.

Lemma sort_In y l : In y (sort cmp l) <-> In y l.
Proof.
  induction l as [|x l IH]; simpl; [tauto|].
  rewrite insert_In, IH. intuition.
Qed.

Hypothesis cmp_ok : consistentComparator cmp.

Lemma insert_sorted x l :
  StronglySorted (notAfter cmp) l ->
  StronglySorted (notAfter cmp) (insert cmp x l).
Proof.
  induction 1 as [|z l S IH F]; simpl.
  - repeat constructor.
  - destruct (Z.leb_spec (cmp x z) 0) as [Le|Gt].
    + constructor; [constructor; assumption|].
      constructor; [exact Le|].
      eapply Forall_impl; [|exact F]. intros w Hw.
      exact (cmp_trans _ cmp_ok _ _ _ Le Hw).
    + constructor; [exact IH|].
      apply Forall_forall. intros w Hw. apply insert_In in Hw.
      destruct Hw as [->|Hw].
      * unfold notAfter.
        assert (cmp z x < 0) by (apply (cmp_flip _ cmp_ok); lia). lia.
      * rewrite Forall_forall in F. exact (F w Hw).
Qed.

Lemma sort_sorted l : StronglySorted (notAfter cmp) (sort cmp l).
Proof.
  induction l as [|x l IH]; simpl; [constructor | apply insert_sorted, IH].
Qed.

End Sorting.

Lemma existsb_eqb_In (k : jsstring) keys :
  existsb (fun k' => JS.eqb k' k) keys = true <-> In k keys.
Proof.
  rewrite existsb_exists. split.
  - intros (x & I & E). apply eqb_eq in E. subst. exact I.
  - intros I. exists k. split; [exact I | apply eqb_eq; reflexivity].
Qed.

Lemma pushNew_In keys k x : In x (pushNew keys k) <-> In x keys \/ x = k.
Proof.
  unfold pushNew. destruct (existsb _ keys) eqn:E.
  - apply existsb_eqb_In in E. intuition (subst; assumption).
  - rewrite in_app_iff. simpl. intuition.
Qed.

Lemma fold_pushNew_In l acc x :
  In x (fold_left pushNew l acc) <-> In x acc \/ In x l.
Proof.
  revert acc; induction l as [|k l IH]; intros acc; simpl; [tauto|].
  rewrite IH, pushNew_In. intuition.
Qed.

Lemma fold_pushNew_NoDup l acc :
  NoDup acc -> NoDup (fold_left pushNew l acc).
Proof.
  revert acc; induction l as [|k l IH]; intros acc ND; simpl; [exact ND|].
  apply IH. unfold pushNew. destruct (existsb _ acc) eqn:E; [exact ND|].
  assert (NI : ~ In k acc).
  { intros I. apply existsb_eqb_In in I. congruence. }
  clear E. induction acc as [|a acc IHa]; simpl.
  - repeat constructor. intros [].
  - inversion ND; subst. constructor.
    + rewrite in_app_iff. simpl. intros [I|[->|[]]]; [tauto|].
      apply NI; left; reflexivity.
    + apply IHa; [assumption|]. intros I. apply NI; right; exact I.
Qed.

Lemma StronglySorted_remove (R : jsstring -> jsstring -> Prop) a x b :
  StronglySorted R (a ++ x :: b) -> StronglySorted R (a ++ b).
Proof.
  induction a as [|y a IH]; simpl; intros S; inversion S; subst.
  - assumption.
  - constructor; [apply IH; assumption|].
    rewrite Forall_forall in *. intros w Hw. apply H2.
    rewrite in_app_iff in *. simpl. tauto.
Qed.

Lemma fold_pushNew_sorted (R : jsstring -> jsstring -> Prop) l acc :
  StronglySorted R (acc ++ l) -> StronglySorted R (fold_left pushNew l acc).
Proof.
  revert acc; induction l as [|k l IH]; intros acc S; simpl.
  - rewrite app_nil_r in S; exact S.
  - apply IH. unfold pushNew. destruct (existsb _ acc).
    + exact (StronglySorted_remove _ _ _ _ S).
    + rewrite <- app_assoc. exact S.
Qed.

Lemma Map_set_entries (g : jsstring -> jsstring) keys k :
  Map_set (map (fun x => (x, g x)) keys) k (g k) =
  map (fun x => (x, g x)) (pushNew keys k).
Proof.
  unfold pushNew. induction keys as [|k0 keys IH]; simpl; [reflexivity|].
  destruct (JS.eqb k0 k) eqn:E; simpl.
  - apply eqb_eq in E. subst. reflexivity.
  - rewrite IH. destruct (existsb _ keys); reflexivity.
Qed.

Lemma fold_Map_set_entries (g : jsstring -> jsstring) l keys :
  fold_left (fun links file => Map_set links file (g file)) l
            (map (fun x => (x, g x)) keys) =
  map (fun x => (x, g x)) (fold_left pushNew l keys).
Proof.
  revert keys; induction l as [|k l IH]; intros keys; simpl; [reflexivity|].
  rewrite Map_set_entries. apply IH.
Qed.

Lemma buildLinks_entries cmp prNumber files :
  buildLinks cmp prNumber files =
  map (fun file => (file, toLink prNumber file)) (distinct (sort cmp files)).
Proof.
  unfold buildLinks, distinct.
  exact (fold_Map_set_entries (toLink prNumber) (sort cmp files) []).
Qed.

Lemma fold_left_rows (entries : Map) (init : jsstring) :
  fold_left (fun markdownTable entry =>
               markdownTable ++ tableRow (fst entry) (snd entry))
            entries init =
  init ++ concat (map (fun entry => tableRow (fst entry) (snd entry)) entries).
Proof.
  revert init; induction entries as [|e m IH]; intros init; simpl.
  - symmetry; apply app_nil_r.
  - rewrite IH, <- app_assoc. reflexivity.
Qed.

Lemma buildMarkdownPreviewTable_rows cmp prNumber files :
  buildMarkdownPreviewTable cmp prNumber files =
  tableHeader ++ renderRows prNumber (distinct (sort cmp files)).
Proof.
  unfold buildMarkdownPreviewTable, renderRows.
  rewrite fold_left_rows, buildLinks_entries, map_map. reflexivity.
Qed.

Lemma distinct_In l x : In x (distinct l) <-> In x l.
Proof.
  unfold distinct. rewrite fold_pushNew_In. simpl. tauto.
Qed.

Lemma distinct_NoDup l : NoDup (distinct l).
Proof. apply fold_pushNew_NoDup. constructor. Qed.

Lemma distinct_sorted (R : jsstring -> jsstring -> Prop) l :
  StronglySorted R l -> StronglySorted R (distinct l).
Proof. intros S. apply fold_pushNew_sorted. exact S. Qed.

Lemma sorted_distinct_unique cmp (ok : consistentComparator cmp) k1 :
  forall k2,
  StronglySorted (notAfter cmp) k1 -> StronglySorted (notAfter cmp) k2 ->
  NoDup k1 -> NoDup k2 -> sameSet k1 k2 ->
  (forall a b, In a k1 -> In b k1 -> cmp a b = 0 -> a = b) ->
  k1 = k2.
Proof.
  induction k1 as [|a k1 IH]; intros k2 S1 S2 N1 N2 Same Anti.
  - destruct k2 as [|b k2]; [reflexivity|].
    destruct (proj2 (Same b) (or_introl eq_refl)).
  - destruct k2 as [|b k2].
    { destruct (proj1 (Same a) (or_introl eq_refl)). }
    inversion S1 as [|? ? S1' F1]; inversion S2 as [|? ? S2' F2]; subst.
    inversion N1 as [|? ? NI1 N1']; inversion N2 as [|? ? NI2 N2']; subst.
    rewrite Forall_forall in F1, F2.
    assert (E : a = b).
    { destruct (proj1 (Same a) (or_introl eq_refl)) as [E|Ia]; [auto|].
      destruct (proj2 (Same b) (or_introl eq_refl)) as [E|Ib]; [auto|].
      pose proof (F2 a Ia) as Lba. pose proof (F1 b Ib) as Lab.
      unfold notAfter in Lba, Lab.
      apply Anti; [left; reflexivity | right; exact Ib |].
      pose proof (cmp_flip _ ok a b). pose proof (cmp_flip _ ok b a). lia. }
    subst b. f_equal. apply IH; auto.
    + intros x. split; intros I.
      * destruct (proj1 (Same x) (or_intror I)) as [E|I']; [|exact I'].
        subst x. contradiction.
      * destruct (proj2 (Same x) (or_intror I)) as [E|I']; [|exact I'].
        subst x. contradiction.
    + intros x y Ix Iy. apply Anti; right; assumption.
Qed.

(* ================================================================== *)
(** ** The reference collation is a consistent comparator *)

Lemma codeUnitCompare_refl a : codeUnitCompare a a = 0.
Proof.
  induction a as [|x a IH]; simpl; [reflexivity|].
  rewrite N.compare_refl. exact IH.
Qed.

Lemma codeUnitCompare_flip a :
  forall b, codeUnitCompare a b < 0 <-> codeUnitCompare b a > 0.
Proof.
  induction a as [|x a IH]; intros [|y b]; simpl; try lia.
  rewrite (N.compare_antisym x y).
  destruct (x ?= y)%N; simpl; try lia. apply IH.
Qed.

Lemma codeUnitCompare_trans a :
  forall b c, codeUnitCompare a b <= 0 -> codeUnitCompare b c <= 0 ->
              codeUnitCompare a c <= 0.
Proof.
  induction a as [|x a IH]; intros [|y b] [|z c]; simpl; try lia.
  destruct (N.compare_spec x y); try lia;
    destruct (N.compare_spec y z); try lia;
    destruct (N.compare_spec x z); try lia; subst; try lia.
  apply IH.
Qed.

Lemma codeUnitCompare_eq a :
  forall b, codeUnitCompare a b = 0 -> a = b.
Proof.
  induction a as [|x a IH]; intros [|y b]; simpl; try lia; [reflexivity|].
  destruct (N.compare_spec x y); try lia.
  intros E. subst. f_equal. apply IH; exact E.
Qed.

Lemma codeUnitCompare_consistent : consistentComparator codeUnitCompare.
Proof.
  constructor.
  - apply codeUnitCompare_refl.
  - intros; apply codeUnitCompare_flip.
  - intros a b c; apply codeUnitCompare_trans.
Qed.

Lemma canonicalCompare_consistent : consistentComparator canonicalCompare.
Proof.
  unfold canonicalCompare. constructor.
  - intros; apply codeUnitCompare_refl.
  - intros; apply codeUnitCompare_flip.
  - intros a b c; apply codeUnitCompare_trans.
Qed.

(* ================================================================== *)
(** ** The table builder: statements *)

Lemma replace_cutFirst (s pat : jsstring) :
  replace s pat [] = cutFirst pat s.
Proof.
  unfold cutFirst. induction s as [|c s IH]; simpl.
  - destruct pat; reflexivity.
  - destruct (startsWith (c :: s) pat); [reflexivity|].
    rewrite IH. destruct (search s pat); reflexivity.
Qed.

Lemma tableRow_rowText (prNumber : N) (file : jsstring) :
  tableRow file (toLink prNumber file) = rowText prNumber file.
Proof.
  unfold tableRow, toLink, rowText. rewrite !replace_cutFirst.
  rewrite <- !app_assoc. reflexivity.
Qed.

Lemma rendered_rows_text (prNumber : N) (rows : list jsstring) :
  renderRows prNumber rows = concat (map (rowText prNumber) rows).
Proof.
  unfold renderRows. f_equal. apply map_ext. intros file.
  apply tableRow_rowText.
Qed.

Lemma rowText_shows_path (prNumber : N) (p : jsstring) :
  rowText prNumber p =
    (lit "| " ++ [0xD83D; 0xDCC4]%N ++ lit " _" ++ p ++ lit "_ | ")
    ++ [0xD83D; 0xDD17]%N ++ lit " [Preview: " ++ cutFirst (lit ".md") p
    ++ lit "](https://review.learn.microsoft.com/en-us/dotnet/"
    ++ cutFirst (lit ".md") (cutFirst (lit "docs/") p)
    ++ lit "?branch=pr-en-us-" ++ toString prNumber ++ lit ") |" ++ [10%N].
Proof. unfold rowText. rewrite <- !app_assoc. reflexivity. Qed.

Lemma row_in_rendered_rows (prNumber : N) (rows : list jsstring) p :
  In p rows ->
  contains (lit "| " ++ [0xD83D; 0xDCC4]%N ++ lit " _" ++ p ++ lit "_ | ")
           (concat (map (rowText prNumber) rows)).
Proof.
  intros I. apply in_split in I. destruct I as (r1 & r2 & ->).
  rewrite map_app, concat_app. cbn [map concat].
  rewrite rowText_shows_path.
  eexists (concat (map (rowText prNumber) r1)), _.
  rewrite <- app_assoc. reflexivity.
Qed.

(** C2. The table rendered for the files [getModifiedMarkdownFiles]
    selects is the header followed by one row per path, each row
    showing its path, and the paths of the rows are the paths of the
    fetched files that end in '.md' and whose change type is ADDED,
    CHANGED or MODIFIED: exactly those paths, in the order of the
    comparator, each path once. *)
Theorem table_rows_are_modified_markdown
    (localeCompare : jsstring -> jsstring -> Z)
    (ok : consistentComparator localeCompare) (prNumber : N) (pr : Pull)
    (paths : list jsstring) :
  getModifiedMarkdownFiles pr = Returns paths ->
  exists rows,
    Map_keys (buildLinks localeCompare prNumber paths) = rows
    /\ buildMarkdownPreviewTable localeCompare prNumber paths
       = lit "| File | Preview |" ++ [10%N] ++ lit "|:--|:--|" ++ [10%N]
         ++ concat (map (fun file =>
              lit "| " ++ [0xD83D; 0xDCC4]%N ++ lit " _" ++ file ++ lit "_ | "
              ++ [0xD83D; 0xDD17]%N ++ lit " [Preview: "
              ++ cutFirst (lit ".md") file
              ++ lit "](https://review.learn.microsoft.com/en-us/dotnet/"
              ++ cutFirst (lit ".md") (cutFirst (lit "docs/") file)
              ++ lit "?branch=pr-en-us-" ++ toString prNumber
              ++ lit ") |" ++ [10%N]) rows)
    /\ (forall p, In p rows ->
          contains (lit "| " ++ [0xD83D; 0xDCC4]%N ++ lit " _" ++ p
                    ++ lit "_ | ")
                   (buildMarkdownPreviewTable localeCompare prNumber paths))
    /\ (forall p, In p rows <->
          exists e, In e (fetchedFiles pr) /\ path (node e) = p
                    /\ endsIn (lit ".md") p
                    /\ isAdditive (changeType (node e)))
    /\ StronglySorted (notAfter localeCompare) rows
    /\ NoDup rows.
Proof.
  intros G. apply getModifiedMarkdownFiles_fetched in G. subst paths.
  set (paths := modifiedMarkdownPaths (fetchedFiles pr)).
  exists (distinct (sort localeCompare paths)).
  assert (T : buildMarkdownPreviewTable localeCompare prNumber paths =
              tableHeader
              ++ concat (map (rowText prNumber)
                           (distinct (sort localeCompare paths)))).
  { rewrite buildMarkdownPreviewTable_rows, rendered_rows_text.
    reflexivity. }
  split; [|split; [|split; [|split; [|split]]]].
  - rewrite buildLinks_entries. unfold Map_keys. rewrite map_map. simpl.
    apply map_id.
  - rewrite T. reflexivity.
  - intros p I. rewrite T.
    destruct (row_in_rendered_rows prNumber _ p I) as (pre & post & E).
    exists (tableHeader ++ pre), post. rewrite E, <- !app_assoc.
    reflexivity.
  - intros p. unfold paths.
    rewrite distinct_In, sort_In. apply modifiedMarkdownPaths_In.
  - apply distinct_sorted, sort_sorted; exact ok.
  - apply distinct_NoDup.
Qed.

(** C3, as the code has it.  For two lists of paths with the same
    elements [buildMarkdownPreviewTable] returns the same string,
    provided the comparator does not tie two different paths of the
    lists. *)
Theorem table_independent_of_order
    (localeCompare : jsstring -> jsstring -> Z)
    (ok : consistentComparator localeCompare)
    (prNumber : N) (files1 files2 : list jsstring) :
  sameSet files1 files2 ->
  (forall a b, In a files1 -> In b files1 -> localeCompare a b = 0 -> a = b) ->
  buildMarkdownPreviewTable localeCompare prNumber files1 =
  buildMarkdownPreviewTable localeCompare prNumber files2.
Proof.
  intros Same Anti. rewrite !buildMarkdownPreviewTable_rows. do 2 f_equal.
  apply (sorted_distinct_unique localeCompare ok).
  - apply distinct_sorted, sort_sorted; exact ok.
  - apply distinct_sorted, sort_sorted; exact ok.
  - apply distinct_NoDup.
  - apply distinct_NoDup.
  - intros x. rewrite !distinct_In, !sort_In. apply Same.
  - intros a b Ia Ib. apply Anti.
    + apply distinct_In, sort_In in Ia; exact Ia.
    + apply distinct_In, sort_In in Ib; exact Ib.
Qed.

(** C6. For pull number 34443 the link of
    'docs/orleans/resources/nuget-packages.md' is the review URL of
    'orleans/resources/nuget-packages' on branch 'pr-en-us-34443'; it is
    the value the builder stores for that file. *)
Theorem toLink_nuget_packages :
  toLink 34443 (lit "docs/orleans/resources/nuget-packages.md") =
    lit "https://review.learn.microsoft.com/en-us/dotnet/orleans/resources/nuget-packages?branch=pr-en-us-34443"
  /\ forall localeCompare,
       buildLinks localeCompare 34443
         [lit "docs/orleans/resources/nuget-packages.md"] =
       [(lit "docs/orleans/resources/nuget-packages.md",
         lit "https://review.learn.microsoft.com/en-us/dotnet/orleans/resources/nuget-packages?branch=pr-en-us-34443")].
Proof.
  split; [vm_compute; reflexivity|].
  intros localeCompare. vm_compute. reflexivity.
Qed.

(** C9. The link is built from the path without its first 'docs/' and
    then without its first '.md', wherever they occur.  For
    'docs/a.md-notes/b.md', which ends in '.md', the interior '.md' is
    removed and the final '.md' stays, in the link and in the label of
    the row. *)
Theorem toLink_cuts_first_occurrences (prNumber : N) :
  (forall file,
     toLink prNumber file =
       lit "https://review.learn.microsoft.com/en-us/dotnet/"
       ++ cutFirst (lit ".md") (cutFirst (lit "docs/") file)
       ++ lit "?branch=pr-en-us-" ++ toString prNumber)
  /\ endsWith (lit "docs/a.md-notes/b.md") (lit ".md") = true
  /\ toLink prNumber (lit "docs/a.md-notes/b.md") =
       lit "https://review.learn.microsoft.com/en-us/dotnet/a-notes/b.md?branch=pr-en-us-"
       ++ toString prNumber
  /\ tableRow (lit "docs/a.md-notes/b.md")
              (toLink prNumber (lit "docs/a.md-notes/b.md")) =
       lit "| " ++ PAGE_FACING_UP ++ lit " _docs/a.md-notes/b.md_ | "
       ++ LINK_SYMBOL
       ++ lit " [Preview: docs/a-notes/b.md](https://review.learn.microsoft.com/en-us/dotnet/a-notes/b.md?branch=pr-en-us-"
       ++ toString prNumber ++ lit ") |" ++ [10%N].
Proof.
  split; [|split; [|split]].
  - intros file. unfold toLink. rewrite !replace_cutFirst. reflexivity.
  - reflexivity.
  - reflexivity.
  - reflexivity.
Qed.

(* ================================================================== *)
(** ** The top-level flow *)

(** C8. When the fetched pull request has no changed files, the run
    logs the warning and ends: the events are the start of the group,
    the query, the warning and the end of the group, and the update
    operation is not among them. *)
Theorem no_changed_files_no_update
    (localeCompare : jsstring -> jsstring -> Z) (token : jsstring)
    (h : Host) (details : PullRequestDetails) (pr : Pull) :
  graphqlReply h token = Returns (Some details) ->
  pullRequestOf details = Some pr ->
  changedFiles pr = 0 ->
  traceOf localeCompare token h =
    [ startGroup (lit "Update pull " ++ toString (payload_number (context h))
                  ++ lit " request body.");
      graphql (repo_repo (context h)) (repo_owner (context h))
              (payload_number (context h));
      warning (lit "No files changed at all...");
      endGroup ]
  /\ existsb isUpdate (traceOf localeCompare token h) = false
  /\ fst (tryUpdatePullRequestBody localeCompare token h []) = Returns tt.
Proof.
  intros Reply Chain Zero.
  assert (Run : tryUpdatePullRequestBody localeCompare token h [] =
    (Returns tt,
     [ startGroup (lit "Update pull " ++ toString (payload_number (context h))
                   ++ lit " request body.");
       graphql (repo_repo (context h)) (repo_owner (context h))
               (payload_number (context h));
       warning (lit "No files changed at all...");
       endGroup ])).
  { unfold graphqlReply in Reply.
    unfold tryUpdatePullRequestBody, try_catch_finally, getPullRequest,
      getOctokit, bind, ask, emit, lift, ret.
    cbn [app].
    destruct (getOctokitResult h token) as [octokit|e]; [|discriminate].
    rewrite Reply, Chain, Zero. reflexivity. }
  unfold traceOf. rewrite Run. repeat split.
Qed.

(* ================================================================== *)
(** ** The statements at concrete inputs *)

Lemma replaceExistingTable_splices_witness :
  exists pre rest mid post,
    sampleBody = pre ++ PREVIEW_TABLE_START ++ rest
    /\ firstOccurrence PREVIEW_TABLE_START sampleBody (length pre)
    /\ sampleBody = mid ++ PREVIEW_TABLE_END ++ post
    /\ lastOccurrence PREVIEW_TABLE_END sampleBody (length mid)
    /\ replaceExistingTable sampleBody (lit "| new |") =
         (pre ++ PREVIEW_TABLE_START)
         ++ [10; 10]%N ++ lit "| new |" ++ [10; 10]%N
         ++ (PREVIEW_TABLE_END ++ post).
Proof.
  apply (replaceExistingTable_splices sampleBody (lit "| new |")).
  - exists (lit "Intro."),
      (lit "old table" ++ PREVIEW_TABLE_END ++ lit "Outro.").
    reflexivity.
  - exists (lit "Intro." ++ PREVIEW_TABLE_START ++ lit "old table"),
      (lit "Outro.").
    reflexivity.
Defined.

Lemma appendTable_concat_witness :
  appendTable (lit "Adds two pages.") (lit "| new |") =
    lit "Adds two pages." ++ [10; 10]%N ++ lit "| new |"
  /\ updatedBodyFor (lit "Adds two pages.") (lit "| new |") =
    lit "Adds two pages." ++ [10; 10]%N ++ lit "| new |".
Proof.
  apply (appendTable_concat (lit "Adds two pages.") (lit "| new |"));
    apply includes_false_iff; vm_compute; reflexivity.
Defined.

Lemma replaceExistingTable_diagnostics_witness :
  replaceExistingTable (lit "Adds two pages.") (lit "| new |") =
    lit "Unable to parse starting index of existing markdown table."
  /\ replaceExistingTable (lit "Intro." ++ PREVIEW_TABLE_START) (lit "| new |") =
    lit "Unable to parse ending index of existing markdown table.".
Proof.
  split.
  - apply (proj1 (replaceExistingTable_diagnostics
                    (lit "Adds two pages.") (lit "| new |"))).
    apply includes_false_iff; vm_compute; reflexivity.
  - apply (proj2 (replaceExistingTable_diagnostics
                    (lit "Intro." ++ PREVIEW_TABLE_START) (lit "| new |"))).
    + exists (lit "Intro."), []. reflexivity.
    + apply includes_false_iff; vm_compute; reflexivity.
Defined.

Lemma guarded_replaceExistingTable_splices_witness :
  indexOf sampleBody PREVIEW_TABLE_START = 6
  /\ lastIndexOf sampleBody PREVIEW_TABLE_END = 43
  /\ replaceExistingTable sampleBody (lit "| new |") <>
       lit "Unable to parse starting index of existing markdown table."
  /\ replaceExistingTable sampleBody (lit "| new |") <>
       lit "Unable to parse ending index of existing markdown table.".
Proof.
  pose proof (guarded_replaceExistingTable_splices sampleBody (lit "| new |")
                ltac:(vm_compute; reflexivity)) as (_ & _ & _ & D1 & D2).
  repeat split; assumption.
Defined.

Lemma table_rows_are_modified_markdown_witness :
  exists rows,
    Map_keys (buildLinks codeUnitCompare 34443
                [lit "docs/b.md"; lit "docs/a.md"; lit "docs/b.md"]) = rows
    /\ (forall p, In p rows ->
          contains (lit "| " ++ [0xD83D; 0xDCC4]%N ++ lit " _" ++ p
                    ++ lit "_ | ")
                   (buildMarkdownPreviewTable codeUnitCompare 34443
                      [lit "docs/b.md"; lit "docs/a.md"; lit "docs/b.md"]))
    /\ (forall p, In p rows <->
          exists e, In e (fetchedFiles (samplePull 5)) /\ path (node e) = p
                    /\ endsIn (lit ".md") p
                    /\ isAdditive (changeType (node e)))
    /\ StronglySorted (notAfter codeUnitCompare) rows
    /\ NoDup rows.
Proof.
  destruct (table_rows_are_modified_markdown codeUnitCompare
              codeUnitCompare_consistent 34443 (samplePull 5)
              [lit "docs/b.md"; lit "docs/a.md"; lit "docs/b.md"] eq_refl)
    as (rows & K & _ & C & I & S & N).
  exists rows. repeat split; try assumption; apply I.
Defined.

Lemma table_independent_of_order_witness :
  buildMarkdownPreviewTable codeUnitCompare 34443
    [lit "docs/b.md"; lit "docs/a.md"; lit "docs/b.md"] =
  buildMarkdownPreviewTable codeUnitCompare 34443
    [lit "docs/a.md"; lit "docs/b.md"].
Proof.
  apply (table_independent_of_order codeUnitCompare
           codeUnitCompare_consistent 34443).
  - intros x. simpl. tauto.
  - intros a b _ _. apply codeUnitCompare_eq.
Defined.

Lemma no_changed_files_no_update_witness :
  existsb isUpdate (traceOf codeUnitCompare (lit "token")
                      (sampleHost (samplePull 0))) = false.
Proof.
  apply (no_changed_files_no_update codeUnitCompare (lit "token")
           (sampleHost (samplePull 0))
           (mkDetails (Some (mkData (Some
              (mkRepository (Some (samplePull 0)))))))
           (samplePull 0));
    reflexivity.
Defined.

(** The same host with five changed files: the update is issued, with
    the table of 'docs/a.md' and 'docs/b.md' appended to the body. *)
Example sample_run_updates :
  traceOf codeUnitCompare (lit "token") (sampleHost (samplePull 5)) =
    [ startGroup (lit "Update pull 34443 request body.");
      graphql (lit "docs") (lit "dotnet") 34443;
      pulls_update (lit "dotnet") (lit "docs") 34443
        (lit "Adds two pages." ++ [10; 10]%N ++ tableHeader
         ++ renderRows 34443 [lit "docs/a.md"; lit "docs/b.md"]);
      notice (lit "Pull request updated...");
      endGroup ].
Proof. vm_compute. reflexivity. Qed.

(** C3, as stated, fails: under a collation that ties the two spellings
    of 'docs/café.md' the two orders of the same two paths give
    different tables, because the stable sort keeps tied paths in their
    input order and the map keeps both as keys. *)
Lemma table_depends_on_order_of_tied_paths :
  consistentComparator canonicalCompare
  /\ canonicalCompare cafe_composed cafe_decomposed = 0
  /\ sameSet [cafe_composed; cafe_decomposed] [cafe_decomposed; cafe_composed]
  /\ buildMarkdownPreviewTable canonicalCompare 34443
       [cafe_composed; cafe_decomposed] <>
     buildMarkdownPreviewTable canonicalCompare 34443
       [cafe_decomposed; cafe_composed].
Proof.
  split; [exact canonicalCompare_consistent|].
  split; [reflexivity|].
  split; [intros x; simpl; tauto|].
  intros E. vm_compute in E. discriminate E.
Qed.


(* ================================================================== *)
(** ** The change filter: the guard and the selection *)

Lemma some_additive_markdown (nodes : list (NodeOf FileChange)) :
  existsb (fun e => isFileModified e && endsWith (path (node e)) (lit ".md"))
          nodes = true <->
  exists e, In e nodes /\ isAdditive (changeType (node e))
            /\ endsIn (lit ".md") (path (node e)).
Proof.
  rewrite existsb_exists. split.
  - intros (e & I & B). apply andb_true_iff in B. destruct B as [M E].
    exists e. repeat split; auto.
    + apply isFileModified_true; exact M.
    + apply endsWith_iff; exact E.
  - intros (e & I & M & E). exists e. split; [exact I|].
    apply andb_true_iff. split.
    + apply isFileModified_true; exact M.
    + apply endsWith_iff; exact E.
Qed.

Lemma guard_true_iff (pr : Pull) :
  isPullRequestModifyingMarkdownFiles pr = Some true <->
  changedFiles pr > 0
  /\ exists e, In e (fetchedFiles pr)
               /\ isAdditive (changeType (node e))
               /\ endsIn (lit ".md") (path (node e)).
Proof.
  unfold isPullRequestModifyingMarkdownFiles, fetchedFiles.
  destruct (Z.gtb_spec (changedFiles pr) 0) as [P|NP].
  - destruct (files pr) as [connection|].
    + destruct (edges connection) as [nodes|].
      * destruct nodes as [|n nodes].
        -- simpl. split; [discriminate | intros [_ (e & [] & _)]].
        -- cbn [length Nat.ltb Nat.leb].
           rewrite <- some_additive_markdown. split.
           ++ intros [= E]. split; [lia | exact E].
           ++ intros [_ E]. rewrite E. reflexivity.
      * split; [discriminate | intros [_ (e & [] & _)]].
    + split; [discriminate | intros [_ (e & [] & _)]].
  - split; [discriminate | intros [P _]; lia].
Qed.

Lemma guard_null_iff (pr : Pull) :
  isPullRequestModifyingMarkdownFiles pr = None <->
  changedFiles pr > 0
  /\ (files pr = None
      \/ exists connection, files pr = Some connection
                            /\ edges connection = None).
Proof.
  unfold isPullRequestModifyingMarkdownFiles.
  destruct (Z.gtb_spec (changedFiles pr) 0) as [P|NP].
  - destruct (files pr) as [connection|].
    + destruct (edges connection) as [nodes|] eqn:E.
      * destruct (0 <? length nodes)%nat;
          (split; [discriminate|]);
          intros [_ [F|(c & [= <-] & E')]]; congruence.
      * split; [intros _|reflexivity]. split; [lia|]. right.
        exists connection. auto.
    + split; [intros _|reflexivity]. split; [lia|]. left; reflexivity.
  - split; [discriminate | intros [P _]; lia].
Qed.

Lemma guard_null_throws (pr : Pull) :
  isPullRequestModifyingMarkdownFiles pr = None ->
  getModifiedMarkdownFiles pr =
    Throws (TypeError (match files pr with
                       | None => lit "edges"
                       | Some _ => lit "filter"
                       end)).
Proof.
  intros G. apply guard_null_iff in G.
  destruct G as [_ [F|(c & F & E)]]; unfold getModifiedMarkdownFiles;
    rewrite F; [reflexivity|]. rewrite E. reflexivity.
Qed.

Lemma guard_true_selects (pr : Pull) :
  isPullRequestModifyingMarkdownFiles pr = Some true ->
  getModifiedMarkdownFiles pr = Returns (modifiedMarkdownPaths (fetchedFiles pr))
  /\ modifiedMarkdownPaths (fetchedFiles pr) <> [].
Proof.
  intros G. apply guard_true_iff in G. destruct G as [_ (e & I & A & E)].
  split.
  - unfold getModifiedMarkdownFiles, fetchedFiles in *.
    destruct (files pr) as [connection|]; [|destruct I].
    destruct (edges connection) as [nodes|]; [reflexivity | destruct I].
  - intros N.
    assert (I' : In (path (node e)) (modifiedMarkdownPaths (fetchedFiles pr))).
    { apply modifiedMarkdownPaths_In. exists e. auto. }
    rewrite N in I'. destruct I'.
Qed.

(** The guard is true exactly when the pull request reports changed
    files and one of the fetched files is a '.md' path with an additive
    change type.  It is null, not false, exactly when files are reported
    as changed and [files] or [edges] is null, and the caller's test
    [== false] holds only for false, so it lets null through.  It is
    false when the changed-file count is not positive and when the
    array of edges is empty. *)
Theorem guard_iff_additive_markdown (pr : Pull) :
  (isPullRequestModifyingMarkdownFiles pr = Some true <->
   changedFiles pr > 0
   /\ exists e, In e (fetchedFiles pr)
                /\ isAdditive (changeType (node e))
                /\ endsIn (lit ".md") (path (node e)))
  /\ (isPullRequestModifyingMarkdownFiles pr = None <->
      changedFiles pr > 0
      /\ (files pr = None
          \/ exists connection, files pr = Some connection
                                /\ edges connection = None))
  /\ (looseEqualsFalse (isPullRequestModifyingMarkdownFiles pr) = true <->
      isPullRequestModifyingMarkdownFiles pr = Some false)
  /\ (changedFiles pr <= 0 ->
      isPullRequestModifyingMarkdownFiles pr = Some false)
  /\ (forall connection,
        files pr = Some connection -> edges connection = Some [] ->
        isPullRequestModifyingMarkdownFiles pr = Some false).
Proof.
  split; [apply guard_true_iff|]. split; [apply guard_null_iff|].
  split; [|split].
  - destruct (isPullRequestModifyingMarkdownFiles pr) as [[|]|]; simpl;
      split; congruence.
  - intros C. unfold isPullRequestModifyingMarkdownFiles.
    destruct (Z.gtb_spec (changedFiles pr) 0); [lia | reflexivity].
  - intros connection F E. unfold isPullRequestModifyingMarkdownFiles.
    rewrite F, E. destruct (changedFiles pr >? 0); reflexivity.
Qed.

(** The guard and the selection agree: the guard is true exactly when
    files are reported as changed and [getModifiedMarkdownFiles] returns
    at least one path; the table built from the selection then has,
    right after its header, the row of one of the selected paths. *)
Theorem guard_agrees_with_selection
    (localeCompare : jsstring -> jsstring -> Z) (prNumber : N) (pr : Pull) :
  (isPullRequestModifyingMarkdownFiles pr = Some true <->
   changedFiles pr > 0
   /\ exists paths, getModifiedMarkdownFiles pr = Returns paths /\ paths <> [])
  /\ (isPullRequestModifyingMarkdownFiles pr = Some true ->
      exists paths file rest,
        getModifiedMarkdownFiles pr = Returns paths
        /\ In file paths
        /\ buildMarkdownPreviewTable localeCompare prNumber paths =
             lit "| File | Preview |" ++ [10%N] ++ lit "|:--|:--|" ++ [10%N]
             ++ (lit "| " ++ [0xD83D; 0xDCC4]%N ++ lit " _" ++ file
                 ++ lit "_ | " ++ [0xD83D; 0xDD17]%N ++ lit " [Preview: "
                 ++ cutFirst (lit ".md") file
                 ++ lit "](https://review.learn.microsoft.com/en-us/dotnet/"
                 ++ cutFirst (lit ".md") (cutFirst (lit "docs/") file)
                 ++ lit "?branch=pr-en-us-" ++ toString prNumber
                 ++ lit ") |" ++ [10%N])
             ++ rest).
Proof.
  split.
  - split.
    + intros G. split; [apply guard_true_iff in G; tauto|].
      destruct (guard_true_selects pr G) as [S NE].
      exists (modifiedMarkdownPaths (fetchedFiles pr)). split; assumption.
    + intros [P (paths & S & NE)]. apply guard_true_iff. split; [exact P|].
      pose proof (getModifiedMarkdownFiles_fetched _ _ S) as E. subst paths.
      destruct (modifiedMarkdownPaths (fetchedFiles pr)) as [|p l] eqn:M;
        [congruence|].
      assert (I : In p (modifiedMarkdownPaths (fetchedFiles pr)))
        by (rewrite M; left; reflexivity).
      apply modifiedMarkdownPaths_In in I.
      destruct I as (e & I & Ep & E & A). subst p. exists e. auto.
  - intros G. destruct (guard_true_selects pr G) as [S NE].
    set (paths := modifiedMarkdownPaths (fetchedFiles pr)) in *.
    destruct (distinct (sort localeCompare paths)) as [|file rows] eqn:D.
    + exfalso. destruct paths as [|p l]; [congruence|].
      assert (I : In p (distinct (sort localeCompare (p :: l)))).
      { apply distinct_In, sort_In. left; reflexivity. }
      rewrite D in I. destruct I.
    + exists paths, file, (concat (map (rowText prNumber) rows)).
      split; [exact S|]. split.
      * apply (sort_In localeCompare), distinct_In. rewrite D.
        left; reflexivity.
      * rewrite buildMarkdownPreviewTable_rows, rendered_rows_text, D.
        reflexivity.
Qed.

(* ================================================================== *)
(** ** The top-level flow, path by path *)

Lemma run_log (cmp : jsstring -> jsstring -> Z) (token : jsstring)
              (h : Host) (log : list Event) :
  tryUpdatePullRequestBody cmp token h log =
    (Returns tt,
     log ++ startGroup (groupName h) :: runEvents cmp token h ++ [endGroup]).
Proof.
  unfold tryUpdatePullRequestBody, try_catch_finally, getPullRequest,
    getOctokit, pulls_update_call, runEvents, queryEvent, groupName,
    bind, ask, emit, lift, ret.
  destruct (getOctokitResult h token) as [octokit|e] eqn:O; cbn [app];
    [|repeat rewrite <- app_assoc; reflexivity].
  destruct (graphqlResult octokit) as [[details|]|e]; cbn [app];
    try (repeat rewrite <- app_assoc; reflexivity).
  destruct (pullRequestOf details) as [pr|]; cbn [app];
    [|repeat rewrite <- app_assoc; reflexivity].
  unfold afterFetch, updateEvent, updateLog, updateReply, sentBody.
  destruct (changedFiles pr =? 0);
    [cbn [app]; repeat rewrite <- app_assoc; reflexivity|].
  destruct (isPullRequestModifyingMarkdownFiles pr) as [[|]|] eqn:G;
    cbn [looseEqualsFalse negb].
  - destruct (guard_true_selects pr G) as [S _]. rewrite S, O.
    destruct (updateResult octokit _) as [[r|]|e];
      [destruct (status r =? 200)|..];
      cbn [app]; repeat rewrite <- app_assoc; reflexivity.
  - cbn [app]. repeat rewrite <- app_assoc. reflexivity.
  - rewrite (guard_null_throws pr G).
    destruct (files pr); cbn [app]; repeat rewrite <- app_assoc; reflexivity.
Qed.

Lemma traceOf_events cmp token h :
  traceOf cmp token h =
    startGroup (groupName h) :: runEvents cmp token h ++ [endGroup].
Proof. unfold traceOf. rewrite run_log. reflexivity. Qed.

Lemma updateLog_not_call reply :
  isUpdate (updateLog reply) = false /\ isQuery (updateLog reply) = false.
Proof.
  destruct reply as [[r|]|e]; simpl; [destruct (status r =? 200)|..];
    split; reflexivity.
Qed.

Lemma afterFetch_calls cmp token h pr :
  existsb isQuery (afterFetch cmp token h pr ++ [endGroup]) = false
  /\ (length (filter isUpdate (afterFetch cmp token h pr ++ [endGroup])) <= 1)%nat.
Proof.
  unfold afterFetch.
  destruct (changedFiles pr =? 0); simpl; auto.
  destruct (isPullRequestModifyingMarkdownFiles pr) as [[|]|]; simpl; auto.
  - destruct (updateLog_not_call (updateReply h token (sentBody cmp h pr)))
      as [U Q].
    rewrite U, Q. simpl. auto.
  - destruct (files pr); simpl; auto.
Qed.

Lemma afterFetch_update cmp token h pr :
  existsb isUpdate (afterFetch cmp token h pr ++ [endGroup]) = true <->
  (changedFiles pr =? 0) = false
  /\ isPullRequestModifyingMarkdownFiles pr = Some true.
Proof.
  unfold afterFetch.
  destruct (changedFiles pr =? 0); simpl;
    [split; [discriminate | intros [E _]; discriminate E]|].
  destruct (isPullRequestModifyingMarkdownFiles pr) as [[|]|]; simpl.
  - split; [auto | reflexivity].
  - split; [discriminate | intros [_ E]; discriminate E].
  - destruct (files pr); simpl;
      (split; [discriminate | intros [_ E]; discriminate E]).
Qed.

Lemma runEvents_update cmp token h :
  existsb isUpdate (runEvents cmp token h ++ [endGroup]) = true <->
  exists details pr,
    graphqlReply h token = Returns (Some details)
    /\ pullRequestOf details = Some pr
    /\ (changedFiles pr =? 0) = false
    /\ isPullRequestModifyingMarkdownFiles pr = Some true.
Proof.
  unfold runEvents, graphqlReply, queryEvent.
  destruct (getOctokitResult h token) as [octokit|e];
    cbn [app existsb isUpdate orb].
  - destruct (graphqlResult octokit) as [[details|]|e];
      cbn [app existsb isUpdate orb].
    + destruct (pullRequestOf details) as [pr|] eqn:C.
      * rewrite afterFetch_update. split.
        -- intros [Z G]. exists details, pr. auto.
        -- intros (d & p & [= <-] & C' & Z & G).
           rewrite C in C'. injection C' as <-. auto.
      * cbn. split; [discriminate|].
        intros (d & p & [= <-] & C' & _). congruence.
    + split; [discriminate | intros (d & p & E & _); discriminate E].
    + split; [discriminate | intros (d & p & E & _); discriminate E].
  - split; [discriminate | intros (d & p & E & _); discriminate E].
Qed.

(** Whatever the host answers, and whatever was logged before, a run
    returns normally: thrown errors are caught.  It adds to the log the
    start of the group 'Update pull N request body.' first and the end
    of the group last, and keeps what was logged before. *)
Theorem run_returns_and_closes_group
    (localeCompare : jsstring -> jsstring -> Z) (token : jsstring)
    (h : Host) (log : list Event) :
  exists middle,
    tryUpdatePullRequestBody localeCompare token h log =
      (Returns tt,
       log ++ [startGroup (lit "Update pull "
                           ++ toString (payload_number (context h))
                           ++ lit " request body.")]
           ++ middle ++ [endGroup]).
Proof.
  exists (runEvents localeCompare token h).
  rewrite run_log. reflexivity.
Qed.

(** When the client is built, the run sends the query exactly once, as
    the first thing after opening the group, and calls the update
    operation at most once, after the query.  When [getOctokit] throws
    (as it does for an empty token), nothing is sent: the run logs the
    error as a warning and closes the group. *)
Theorem run_queries_once_updates_at_most_once
    (localeCompare : jsstring -> jsstring -> Z) (token : jsstring) (h : Host) :
  (forall octokit,
     getOctokitResult h token = Returns octokit ->
     exists rest,
       traceOf localeCompare token h =
         startGroup (groupName h)
         :: graphql (repo_repo (context h)) (repo_owner (context h))
                    (payload_number (context h))
         :: rest
       /\ existsb isQuery rest = false
       /\ (length (filter isUpdate rest) <= 1)%nat)
  /\ (forall err,
        getOctokitResult h token = Throws err ->
        traceOf localeCompare token h =
          [ startGroup (groupName h); warningError err; endGroup ]).
Proof.
  split.
  - intros octokit O. rewrite traceOf_events. unfold runEvents. rewrite O.
    eexists. split; [reflexivity|].
    destruct (graphqlResult octokit) as [[details|]|e]; simpl; auto.
    destruct (pullRequestOf details) as [pr|]; simpl; auto.
    apply afterFetch_calls.
  - intros err O. rewrite traceOf_events. unfold runEvents. rewrite O.
    reflexivity.
Qed.

(** The update operation is called exactly when the query returns a
    pull request that reports changed files and has, among the fetched
    files, a '.md' path with an additive change type. *)
Theorem run_updates_iff
    (localeCompare : jsstring -> jsstring -> Z) (token : jsstring) (h : Host) :
  existsb isUpdate (traceOf localeCompare token h) = true <->
  exists details pr,
    graphqlReply h token = Returns (Some details)
    /\ pullRequestOf details = Some pr
    /\ changedFiles pr > 0
    /\ exists e, In e (fetchedFiles pr)
                 /\ isAdditive (changeType (node e))
                 /\ endsIn (lit ".md") (path (node e)).
Proof.
  rewrite traceOf_events.
  change (existsb isUpdate (startGroup (groupName h)
                            :: runEvents localeCompare token h ++ [endGroup]))
    with (existsb isUpdate (runEvents localeCompare token h ++ [endGroup])).
  rewrite runEvents_update. split.
  - intros (details & pr & R & C & Z & G). exists details, pr.
    apply guard_true_iff in G. tauto.
  - intros (details & pr & R & C & P & Ex). exists details, pr.
    repeat split; auto.
    + apply Z.eqb_neq. lia.
    + apply guard_true_iff. auto.
Qed.

(** On the updating path the run calls the update with the owner, the
    repository and the pull number of the context, and with the body
    spliced from the fetched body and the table of the selected files;
    then it logs the notice of success for a reply with status 200 and
    a warning for any other reply, a missing reply or a thrown error. *)
Theorem run_update_path
    (localeCompare : jsstring -> jsstring -> Z) (token : jsstring)
    (h : Host) (details : PullRequestDetails) (pr : Pull)
    (e : NodeOf FileChange) :
  graphqlReply h token = Returns (Some details) ->
  pullRequestOf details = Some pr ->
  changedFiles pr > 0 ->
  In e (fetchedFiles pr) ->
  isAdditive (changeType (node e)) ->
  endsIn (lit ".md") (path (node e)) ->
  let newBody :=
    updatedBodyFor (body pr)
      (buildMarkdownPreviewTable localeCompare (payload_number (context h))
         (modifiedMarkdownPaths (fetchedFiles pr))) in
  getModifiedMarkdownFiles pr =
    Returns (modifiedMarkdownPaths (fetchedFiles pr))
  /\ traceOf localeCompare token h =
    [ startGroup (groupName h);
      queryEvent h;
      pulls_update (repo_owner (context h)) (repo_repo (context h))
                   (payload_number (context h)) newBody;
      match updateReply h token newBody with
      | Returns (Some r) =>
          if status r =? 200 then notice (lit "Pull request updated...")
          else warning (lit "Unable to update pull request...")
      | Returns None => warning (lit "Unable to update pull request...")
      | Throws err => warningError err
      end;
      endGroup ].
Proof.
  intros R C P I A E newBody.
  assert (G : isPullRequestModifyingMarkdownFiles pr = Some true).
  { apply guard_true_iff. split; [exact P|]. exists e. auto. }
  assert (Z : (changedFiles pr =? 0) = false) by (apply Z.eqb_neq; lia).
  split; [apply guard_true_selects; exact G|].
  rewrite traceOf_events. unfold runEvents. unfold graphqlReply in R.
  destruct (getOctokitResult h token) as [octokit|err]; [|discriminate].
  rewrite R, C. unfold afterFetch. rewrite Z, G. reflexivity.
Qed.

(** A failure before the pull request is fetched is logged as a warning
    and the run returns, with no update.  When [getOctokit] throws (as
    for an empty token) no query is sent; when the query throws, the
    warning follows the query. *)
Theorem run_fetch_failure
    (localeCompare : jsstring -> jsstring -> Z) (token : jsstring)
    (h : Host) (err : Error) :
  (getOctokitResult h token = Throws err ->
   tryUpdatePullRequestBody localeCompare token h [] =
     (Returns tt,
      [ startGroup (groupName h); warningError err; endGroup ]))
  /\ (forall octokit,
        getOctokitResult h token = Returns octokit ->
        graphqlResult octokit = Throws err ->
        tryUpdatePullRequestBody localeCompare token h [] =
          (Returns tt,
           [ startGroup (groupName h); queryEvent h; warningError err;
             endGroup ])).
Proof.
  split.
  - intros O. rewrite run_log. unfold runEvents. rewrite O. reflexivity.
  - intros octokit O Q. rewrite run_log. unfold runEvents. rewrite O, Q.
    reflexivity.
Qed.

(** When the query returns no details the run logs the notice 'Unable
    to get the pull request from GitHub GraphQL'; when the details hold
    no pull request it logs nothing between the query and the end of
    the group.  Neither calls the update. *)
Theorem run_without_pull_request
    (localeCompare : jsstring -> jsstring -> Z) (token : jsstring) (h : Host) :
  (graphqlReply h token = Returns None ->
   traceOf localeCompare token h =
     [ startGroup (groupName h); queryEvent h;
       notice (lit "Unable to get the pull request from GitHub GraphQL");
       endGroup ])
  /\ (forall details,
        graphqlReply h token = Returns (Some details) ->
        pullRequestOf details = None ->
        traceOf localeCompare token h =
          [ startGroup (groupName h); queryEvent h; endGroup ]).
Proof.
  split.
  - intros R. rewrite traceOf_events. unfold runEvents.
    unfold graphqlReply in R.
    destruct (getOctokitResult h token) as [octokit|err]; [|discriminate].
    rewrite R. reflexivity.
  - intros details R C. rewrite traceOf_events. unfold runEvents.
    unfold graphqlReply in R.
    destruct (getOctokitResult h token) as [octokit|err]; [|discriminate].
    rewrite R, C. reflexivity.
Qed.

(** When files are reported as changed and the fetched array of edges
    holds no '.md' path with an additive change type (no markdown at
    all, or only deleted or renamed pages), the run logs the warning 'No
    updated markdown files...' and calls no update.  When instead
    [files] or [edges] is null, the guard is null, the run goes on,
    [getModifiedMarkdownFiles] throws a TypeError and the run logs that
    error as a warning; it calls no update either. *)
Theorem run_without_markdown
    (localeCompare : jsstring -> jsstring -> Z) (token : jsstring)
    (h : Host) (details : PullRequestDetails) (pr : Pull) :
  graphqlReply h token = Returns (Some details) ->
  pullRequestOf details = Some pr ->
  changedFiles pr > 0 ->
  (forall connection nodes,
     files pr = Some connection -> edges connection = Some nodes ->
     (forall e, In e nodes -> isAdditive (changeType (node e)) ->
                ~ endsIn (lit ".md") (path (node e))) ->
     traceOf localeCompare token h =
       [ startGroup (groupName h); queryEvent h;
         warning (lit "No updated markdown files..."); endGroup ])
  /\ (files pr = None ->
      traceOf localeCompare token h =
        [ startGroup (groupName h); queryEvent h;
          warningError (TypeError (lit "edges")); endGroup ])
  /\ (forall connection,
        files pr = Some connection -> edges connection = None ->
        traceOf localeCompare token h =
          [ startGroup (groupName h); queryEvent h;
            warningError (TypeError (lit "filter")); endGroup ]).
Proof.
  intros R C P.
  assert (Z : (changedFiles pr =? 0) = false) by (apply Z.eqb_neq; lia).
  assert (T : traceOf localeCompare token h =
              startGroup (groupName h) :: queryEvent h
              :: afterFetch localeCompare token h pr ++ [endGroup]).
  { rewrite traceOf_events. unfold runEvents. unfold graphqlReply in R.
    destruct (getOctokitResult h token) as [octokit|err]; [|discriminate].
    rewrite R, C. reflexivity. }
  rewrite T. unfold afterFetch. rewrite Z.
  split; [|split].
  - intros connection nodes F E None.
    assert (G : isPullRequestModifyingMarkdownFiles pr = Some false).
    { destruct (isPullRequestModifyingMarkdownFiles pr) as [[|]|] eqn:G.
      - apply guard_true_iff in G. destruct G as [_ (e & I & A & M)].
        unfold fetchedFiles in I. rewrite F, E in I.
        destruct (None e I A M).
      - reflexivity.
      - apply guard_null_iff in G.
        destruct G as [_ [F'|(c & F' & E')]]; congruence. }
    rewrite G. reflexivity.
  - intros F.
    assert (G : isPullRequestModifyingMarkdownFiles pr = None).
    { apply guard_null_iff. auto. }
    rewrite G, F. reflexivity.
  - intros connection F E.
    assert (G : isPullRequestModifyingMarkdownFiles pr = None).
    { apply guard_null_iff. split; [exact P|]. right. eauto. }
    rewrite G, F. reflexivity.
Qed.

(* ================================================================== *)
(** ** The body splicer over several runs *)

Lemma substring_firstn (s : jsstring) (n : nat) :
  (n <= length s)%nat -> substring s 0 (Z.of_nat n) = firstn n s.
Proof.
  intros L. unfold substring, clamp.
  replace (Z.to_nat (Z.min (Z.max 0 0) _)) with 0%nat by lia.
  replace (Z.to_nat (Z.min (Z.max (Z.of_nat n) 0) _)) with n by lia.
  rewrite Nat.min_0_l, Nat.max_0_l, Nat.sub_0_r. reflexivity.
Qed.

Lemma substringFrom_skipn (s : jsstring) (j : nat) :
  (j <= length s)%nat -> substringFrom s (Z.of_nat j) = skipn j s.
Proof.
  intros L. unfold substringFrom, substring, clamp.
  replace (Z.to_nat (Z.min (Z.max (Z.of_nat j) 0) _)) with j by lia.
  replace (Z.to_nat (Z.min (Z.max (Z.of_nat (length s)) 0) _))
    with (length s) by lia.
  rewrite Nat.min_l, Nat.max_r by lia.
  apply firstn_all2. rewrite length_skipn. lia.
Qed.

Lemma replaceExistingTable_parts (body table : jsstring) i j :
  search body PREVIEW_TABLE_START = Some i ->
  searchLast body PREVIEW_TABLE_END = Some j ->
  replaceExistingTable body table =
    firstn (i + length PREVIEW_TABLE_START) body
    ++ [10; 10]%N ++ table ++ [10; 10]%N ++ skipn j body.
Proof.
  intros Hi Hj. rewrite (replaceExistingTable_found _ _ _ _ Hi Hj).
  pose proof (occursAt_bound _ _ _ (proj1 (search_Some _ _ _ Hi))) as Bi.
  pose proof (occursAt_bound _ _ _ (proj1 (searchLast_Some _ _ _ Hj))) as Bj.
  rewrite <- Nat2Z.inj_add, substring_firstn by exact Bi.
  rewrite substringFrom_skipn by lia. reflexivity.
Qed.

Lemma startsWith_app_long (pat : jsstring) :
  forall p x, (length pat <= length p)%nat ->
              startsWith (p ++ x) pat = startsWith p pat.
Proof.
  induction pat as [|c pat IH]; intros p x L; [reflexivity|].
  destruct p as [|d p]; simpl in *; [lia|].
  rewrite IH by lia. reflexivity.
Qed.

Lemma search_shared_prefix (pat : jsstring) (p : jsstring) :
  forall x y k,
    search (p ++ y) pat = Some k -> (k + length pat <= length p)%nat ->
    search (p ++ x) pat = Some k.
Proof.
  induction p as [|c p IH]; intros x y k F L.
  - simpl in L. destruct pat; [|simpl in L; lia].
    assert (k = 0)%nat by lia. subst. destruct x; reflexivity.
  - simpl in F |- *.
    destruct (startsWith (c :: p ++ y) pat) eqn:P.
    + injection F as <-.
      change (c :: p ++ x) with ((c :: p) ++ x).
      change (c :: p ++ y) with ((c :: p) ++ y) in P.
      rewrite startsWith_app_long in P |- * by (simpl in *; lia).
      rewrite P. reflexivity.
    + destruct (search (p ++ y) pat) as [k'|] eqn:F'; [|discriminate].
      injection F as <-. simpl in L.
      change (c :: p ++ x) with ((c :: p) ++ x).
      change (c :: p ++ y) with ((c :: p) ++ y) in P.
      rewrite startsWith_app_long in P |- * by (simpl; lia).
      rewrite P. rewrite (IH x y k' F') by lia. reflexivity.
Qed.

Lemma searchLast_app (pat t : jsstring) j :
  searchLast t pat = Some j ->
  forall m, searchLast (m ++ t) pat = Some (length m + j)%nat.
Proof.
  intros F m. induction m as [|c m IH]; simpl; [exact F|].
  rewrite IH. reflexivity.
Qed.

Lemma searchLast_skipn (pat s : jsstring) j :
  searchLast s pat = Some j -> searchLast (skipn j s) pat = Some 0%nat.
Proof.
  intros F.
  destruct (proj1 (searchLast_Some _ _ _ F)) as (pre & post & E & L).
  assert (T : skipn j s = pat ++ post).
  { rewrite E, <- L, skipn_app, skipn_all, Nat.sub_diag. reflexivity. }
  destruct (contains_searchLast pat (skipn j s)) as [j' F'].
  { exists [], post. exact T. }
  pose proof (searchLast_app _ _ _ F' (firstn j s)) as G.
  rewrite firstn_skipn, F in G. injection G as G.
  rewrite length_firstn in G.
  assert (j <= length s)%nat by (rewrite E, length_app; lia).
  assert (j' = 0)%nat by lia. subst. exact F'.
Qed.

(** The outcome of a replacement, searched again: the start sentinel is
    first found where it was, and the end sentinel is last found at the
    kept tail. *)
Lemma replaced_positions (body t : jsstring) i j :
  search body PREVIEW_TABLE_START = Some i ->
  searchLast body PREVIEW_TABLE_END = Some j ->
  search (replaceExistingTable body t) PREVIEW_TABLE_START = Some i
  /\ searchLast (replaceExistingTable body t) PREVIEW_TABLE_END =
       Some (i + length PREVIEW_TABLE_START + 2 + length t + 2)%nat.
Proof.
  intros Hi Hj. rewrite (replaceExistingTable_parts _ _ _ _ Hi Hj).
  pose proof (occursAt_bound _ _ _ (proj1 (search_Some _ _ _ Hi))) as Bi.
  set (n := (i + length PREVIEW_TABLE_START)%nat) in *.
  split.
  - apply (search_shared_prefix _ _ _ (skipn n body)).
    + rewrite firstn_skipn. exact Hi.
    + rewrite length_firstn. lia.
  - pose proof (searchLast_app _ _ _ (searchLast_skipn _ _ _ Hj)
                  (firstn n body ++ [10; 10]%N ++ t ++ [10; 10]%N)) as G.
    rewrite <- !app_assoc in G. refine (eq_trans G _). f_equal.
    rewrite !length_app, length_firstn. simpl. lia.
Qed.

(** A body produced by a replacement still holds both sentinels, so the
    next run takes the replacing path again. *)
Theorem replaced_body_keeps_sentinels (body table : jsstring) :
  contains PREVIEW_TABLE_START body ->
  contains PREVIEW_TABLE_END body ->
  includes (replaceExistingTable body table) PREVIEW_TABLE_START
  && includes (replaceExistingTable body table) PREVIEW_TABLE_END = true.
Proof.
  intros CS CE.
  destruct (contains_search _ _ CS) as [i Hi].
  destruct (contains_searchLast _ _ CE) as [j Hj].
  destruct (replaced_positions body table i j Hi Hj) as [S1 S2].
  apply andb_true_iff. split.
  - unfold includes. rewrite S1. reflexivity.
  - apply includes_iff, contains_occursAt. eexists.
    apply (searchLast_Some _ _ _ S2).
Qed.

(** Replacing twice is replacing once with the later table: the first
    table leaves no trace, whatever it contains.  In particular a run
    repeated with the same table changes nothing more. *)
Theorem replaceExistingTable_last_table_wins (body table1 table2 : jsstring) :
  contains PREVIEW_TABLE_START body ->
  contains PREVIEW_TABLE_END body ->
  replaceExistingTable (replaceExistingTable body table1) table2 =
    replaceExistingTable body table2
  /\ updatedBodyFor (updatedBodyFor body table1) table2 =
       updatedBodyFor body table2.
Proof.
  intros CS CE.
  destruct (contains_search _ _ CS) as [i Hi].
  destruct (contains_searchLast _ _ CE) as [j Hj].
  destruct (replaced_positions body table1 i j Hi Hj) as [S1 S2].
  assert (R : replaceExistingTable (replaceExistingTable body table1) table2 =
              replaceExistingTable body table2).
  { rewrite (replaceExistingTable_parts _ table2 _ _ S1 S2).
    rewrite (replaceExistingTable_parts _ table1 _ _ Hi Hj).
    rewrite (replaceExistingTable_parts _ table2 _ _ Hi Hj).
    pose proof (occursAt_bound _ _ _ (proj1 (search_Some _ _ _ Hi))) as Bi.
    set (n := (i + length PREVIEW_TABLE_START)%nat) in *.
    assert (Ln : length (firstn n body) = n) by (rewrite length_firstn; lia).
    f_equal.
    - rewrite firstn_app, Ln, Nat.sub_diag, firstn_all2 by lia.
      simpl. apply app_nil_r.
    - do 3 f_equal.
      set (Q := firstn n body ++ [10; 10]%N ++ table1 ++ [10; 10]%N).
      transitivity (skipn (length Q) (Q ++ skipn j body)).
      + f_equal.
        * unfold Q. rewrite !length_app, Ln. simpl. lia.
        * unfold Q. rewrite <- !app_assoc. reflexivity.
      + rewrite skipn_app, skipn_all, Nat.sub_diag. reflexivity. }
  split; [exact R|].
  pose proof (replaced_body_keeps_sentinels body table1 CS CE) as K.
  apply includes_iff in CS, CE.
  unfold updatedBodyFor at 2. rewrite CS, CE. cbn [andb].
  unfold updatedBodyFor. rewrite K, CS, CE. cbn [andb]. exact R.
Qed.

Lemma prefix_before_LF (pat : jsstring) :
  forall a b post,
    ~ In 10%N pat -> pat ++ post = a ++ 10%N :: b -> exists a2, a = pat ++ a2.
Proof.
  induction pat as [|p pat IH]; intros a b post NI E.
  - exists a; reflexivity.
  - destruct a as [|x a]; simpl in E; inversion E; subst.
    + exfalso. apply NI. left; reflexivity.
    + destruct (IH a b post) as [a2 ->]; [|assumption|].
      * intros I. apply NI. right; exact I.
      * exists a2. reflexivity.
Qed.

Lemma contains_across_LF (pat a : jsstring) :
  forall b, ~ In 10%N pat -> contains pat (a ++ 10%N :: b) ->
            contains pat a \/ contains pat b.
Proof.
  induction a as [|x a IH]; intros b NI (pre & post & E).
  - destruct pre as [|c pre]; simpl in E.
    + destruct pat as [|p pat]; [left; exists [], []; reflexivity|].
      inversion E; subst. exfalso. apply NI. left; reflexivity.
    + inversion E; subst. right. exists pre, post. reflexivity.
  - destruct pre as [|c pre]; simpl in E.
    + symmetry in E.
      destruct (prefix_before_LF pat (x :: a) b post NI E) as [a2 E2].
      left. exists [], a2. exact E2.
    + inversion E; subst.
      destruct (IH b NI) as [(p1 & p2 & E1)|R].
      * exists pre, post. assumption.
      * left. exists (c :: p1), p2. simpl. congruence.
      * right. exact R.
Qed.

Lemma not_In_by_evaluation (c : N) (l : jsstring) :
  existsb (N.eqb c) l = false -> ~ In c l.
Proof.
  intros E I.
  assert (X : existsb (N.eqb c) l = true).
  { apply existsb_exists. exists c. split; [exact I | apply N.eqb_refl]. }
  congruence.
Qed.

Lemma contains_In (pat s : jsstring) (c : N) :
  In c pat -> contains pat s -> In c s.
Proof.
  intros I (pre & post & ->). rewrite !in_app_iff. tauto.
Qed.

(** The body the flow sends always holds the table, and it is never one
    of the two diagnostic texts of [replaceExistingTable], whatever the
    fetched body: with only one of the two sentinels the flow appends. *)
Theorem updatedBodyFor_holds_table (body table : jsstring) :
  contains table (updatedBodyFor body table)
  /\ updatedBodyFor body table <>
       lit "Unable to parse starting index of existing markdown table."
  /\ updatedBodyFor body table <>
       lit "Unable to parse ending index of existing markdown table."
  /\ (~ contains PREVIEW_TABLE_START body \/ ~ contains PREVIEW_TABLE_END body ->
      updatedBodyFor body table = body ++ [10; 10]%N ++ table).
Proof.
  destruct LF_not_in_diagnostics as [D1 D2].
  assert (K : contains table (updatedBodyFor body table)
              /\ In 10%N (updatedBodyFor body table)).
  { unfold updatedBodyFor.
    destruct (includes body PREVIEW_TABLE_START) eqn:IS;
      [destruct (includes body PREVIEW_TABLE_END) eqn:IE|]; cbn [andb].
    - apply includes_iff in IS, IE.
      destruct (contains_search _ _ IS) as [i Hi].
      destruct (contains_searchLast _ _ IE) as [j Hj].
      rewrite (replaceExistingTable_parts _ _ _ _ Hi Hj). split.
      + exists (firstn (i + length PREVIEW_TABLE_START) body ++ [10; 10]%N),
          ([10; 10]%N ++ skipn j body).
        rewrite <- !app_assoc. reflexivity.
      + rewrite in_app_iff. right. left. reflexivity.
    - split.
      + exists (body ++ [10; 10]%N), []. unfold appendTable.
        rewrite app_nil_r, <- app_assoc. reflexivity.
      + unfold appendTable. rewrite in_app_iff. right. left. reflexivity.
    - split.
      + exists (body ++ [10; 10]%N), []. unfold appendTable.
        rewrite app_nil_r, <- app_assoc. reflexivity.
      + unfold appendTable. rewrite in_app_iff. right. left. reflexivity. }
  destruct K as [K1 K2]. split; [exact K1|].
  split; [intros E; rewrite E in K2; tauto|].
  split; [intros E; rewrite E in K2; tauto|].
  intros [NS|NE]; unfold updatedBodyFor.
  - apply includes_false_iff in NS. rewrite NS. reflexivity.
  - apply includes_false_iff in NE. rewrite NE, andb_false_r. reflexivity.
Qed.

Lemma appended_has_no_start (body table : jsstring) :
  ~ contains PREVIEW_TABLE_START body ->
  ~ contains PREVIEW_TABLE_START table ->
  ~ contains PREVIEW_TABLE_START (appendTable body table).
Proof.
  intros NB NT C.
  change (appendTable body table) with (body ++ 10%N :: 10%N :: table) in C.
  assert (NL : ~ In 10%N PREVIEW_TABLE_START)
    by (apply not_In_by_evaluation; reflexivity).
  apply contains_across_LF in C; [|exact NL]. destruct C as [C|C]; [tauto|].
  apply (contains_across_LF _ []) in C; [|exact NL].
  destruct C as [C|C]; [|tauto].
  apply includes_iff in C. discriminate C.
Qed.

(** Appending does not bracket the table in sentinels: when neither the
    body nor the first table holds the start sentinel, a second run
    appends again, and both tables stay in the body. *)
Theorem appended_table_is_appended_again (body table1 table2 : jsstring) :
  ~ contains PREVIEW_TABLE_START body ->
  ~ contains PREVIEW_TABLE_START table1 ->
  updatedBodyFor (updatedBodyFor body table1) table2 =
    body ++ [10; 10]%N ++ table1 ++ [10; 10]%N ++ table2.
Proof.
  intros NB NT.
  pose proof (appended_has_no_start body table1 NB NT) as N2.
  apply includes_false_iff in NB, N2.
  unfold updatedBodyFor at 2. rewrite NB. cbn [andb].
  unfold updatedBodyFor. rewrite N2. cbn [andb].
  unfold appendTable. rewrite <- !app_assoc. reflexivity.
Qed.

(* ================================================================== *)
(** ** The table builder: links, rows and their characters *)

Lemma firstOccurrence_search (pat s : jsstring) k :
  firstOccurrence pat s k -> search s pat = Some k.
Proof.
  intros [O Min].
  destruct (contains_search pat s) as [k' F].
  { apply contains_occursAt. exists k. exact O. }
  destruct (search_Some _ _ _ F) as [O' Min'].
  pose proof (Min _ O'). pose proof (Min' _ O).
  rewrite F. f_equal. lia.
Qed.

Lemma replace_at_first (s pat : jsstring) (pre post : jsstring) :
  s = pre ++ pat ++ post ->
  firstOccurrence pat s (length pre) ->
  replace s pat [] = pre ++ post.
Proof.
  intros E FO. rewrite replace_cutFirst. unfold cutFirst.
  rewrite (firstOccurrence_search _ _ _ FO), E.
  rewrite firstn_app, Nat.sub_diag, firstn_all. simpl. rewrite app_nil_r.
  f_equal. rewrite skipn_app, skipn_all2 by lia.
  replace (length pre + length pat - length pre)%nat with (length pat) by lia.
  rewrite skipn_app, skipn_all, Nat.sub_diag. reflexivity.
Qed.

(** For a path 'docs/STEM.md' whose only '.md' is the final one, the
    link is the review URL of STEM on the branch of the pull request,
    and the label of the row is 'docs/STEM'. *)
Theorem toLink_of_docs_page (prNumber : N) (stem : jsstring) :
  firstOccurrence (lit ".md") (stem ++ lit ".md") (length stem) ->
  toLink prNumber (lit "docs/" ++ stem ++ lit ".md") =
    lit "https://review.learn.microsoft.com/en-us/dotnet/" ++ stem
    ++ lit "?branch=pr-en-us-" ++ toString prNumber
  /\ replace (lit "docs/" ++ stem ++ lit ".md") (lit ".md") [] =
       lit "docs/" ++ stem.
Proof.
  intros FO.
  assert (R : replace (stem ++ lit ".md") (lit ".md") [] = stem).
  { pose proof (replace_at_first (stem ++ lit ".md") (lit ".md") stem []
                  eq_refl FO) as R0.
    rewrite app_nil_r in R0. exact R0. }
  split.
  - unfold toLink.
    change (replace (lit "docs/" ++ stem ++ lit ".md") (lit "docs/") [])
      with (stem ++ lit ".md").
    rewrite R. reflexivity.
  - change (replace (lit "docs/" ++ stem ++ lit ".md") (lit ".md") [])
      with (lit "docs/" ++ replace (stem ++ lit ".md") (lit ".md") []).
    rewrite R. reflexivity.
Qed.

Lemma tableRow_nonempty file link : tableRow file link <> [].
Proof. unfold tableRow. simpl. discriminate. Qed.

(** The table is the bare header exactly when no file is given; with
    any file it has rows after the header. *)
Theorem table_is_header_iff_no_files
    (localeCompare : jsstring -> jsstring -> Z) (prNumber : N)
    (files : list jsstring) :
  buildMarkdownPreviewTable localeCompare prNumber files =
    lit "| File | Preview |" ++ [10%N] ++ lit "|:--|:--|" ++ [10%N]
  <-> files = [].
Proof.
  split.
  - intros E. rewrite buildMarkdownPreviewTable_rows in E.
    change (lit "| File | Preview |" ++ [10%N] ++ lit "|:--|:--|" ++ [10%N])
      with tableHeader in E.
    rewrite <- (app_nil_r tableHeader) in E at 2.
    apply app_inv_head in E. unfold renderRows in E.
    destruct (distinct (sort localeCompare files)) as [|r rows] eqn:D.
    + destruct files as [|f files]; [reflexivity|].
      assert (I : In f (distinct (sort localeCompare (f :: files)))).
      { apply distinct_In, sort_In. left; reflexivity. }
      rewrite D in I. destruct I.
    + cbn [map concat] in E. apply app_eq_nil in E. destruct E as [E _].
      destruct (tableRow_nonempty _ _ E).
  - intros ->. reflexivity.
Qed.

Lemma In_skipn_In {A} (x : A) n (l : list A) : In x (skipn n l) -> In x l.
Proof.
  intros I. rewrite <- (firstn_skipn n l). apply in_or_app. right; exact I.
Qed.

Lemma replace_In (pat s : jsstring) (c : N) :
  In c (replace s pat []) -> In c s.
Proof.
  induction s as [|d s IH]; simpl.
  - destruct (startsWith [] pat); simpl; [|tauto].
    intros I. apply In_skipn_In in I. exact I.
  - destruct (startsWith (d :: s) pat); simpl.
    + intros I. apply In_skipn_In in I. exact I.
    + intros [->|I]; [left; reflexivity | right; apply IH; exact I].
Qed.

Lemma string_of_uint_digits (d : Decimal.uint) (c : N) :
  In c (lit (NilEmpty.string_of_uint d)) -> (48 <= c <= 57)%N.
Proof.
  induction d; simpl; try tauto; intros [<-|I]; try lia; auto.
Qed.

Lemma toString_digits (n c : N) : In c (toString n) -> (48 <= c <= 57)%N.
Proof.
  unfold toString, NilZero.string_of_uint.
  destruct (N.to_uint n) eqn:U; try apply string_of_uint_digits.
  simpl. intros [<-|[]]. lia.
Qed.

Lemma tableRow_lt (prNumber : N) (file : jsstring) :
  In 60%N (tableRow file (toLink prNumber file)) -> In 60%N file.
Proof.
  unfold tableRow, toLink. rewrite !in_app_iff.
  intros H.
  repeat match goal with
         | H : _ \/ _ |- _ => destruct H as [H|H]
         end;
    try (exfalso; revert H; apply not_In_by_evaluation; reflexivity);
    try exact H;
    try (apply replace_In in H; try apply replace_In in H; exact H).
  apply toString_digits in H. lia.
Qed.

Lemma built_table_no_lt
    (cmp : jsstring -> jsstring -> Z) (prNumber : N) (files : list jsstring) :
  (forall file, In file files -> ~ In 60%N file) ->
  ~ In 60%N (buildMarkdownPreviewTable cmp prNumber files).
Proof.
  intros Clean.
  rewrite buildMarkdownPreviewTable_rows, in_app_iff. intros [I|I].
  - revert I. apply not_In_by_evaluation. reflexivity.
  - unfold renderRows in I. apply in_concat in I.
    destruct I as (row & Irow & I). apply in_map_iff in Irow.
    destruct Irow as (file & <- & If).
    apply distinct_In, sort_In in If.
    apply tableRow_lt in I. exact (Clean file If I).
Qed.

(** When no path holds the character '<', the built table holds
    neither sentinel: the header, the fixed parts of the rows, the links
    and the pull number bring none. *)
Theorem built_table_holds_no_sentinel
    (localeCompare : jsstring -> jsstring -> Z) (prNumber : N)
    (files : list jsstring) :
  (forall file, In file files -> ~ In 60%N file) ->
  ~ contains PREVIEW_TABLE_START
      (buildMarkdownPreviewTable localeCompare prNumber files)
  /\ ~ contains PREVIEW_TABLE_END
        (buildMarkdownPreviewTable localeCompare prNumber files).
Proof.
  intros Clean.
  pose proof (built_table_no_lt localeCompare prNumber files Clean) as NL.
  split; intros C; apply NL; refine (contains_In _ _ 60%N _ C);
    left; reflexivity.
Qed.

(** A second run on the body the first run produced by appending: when
    the fetched body has no start sentinel and no path of the pull
    request holds '<', the body sent by the second run is the first body
    followed by the table twice. *)
Theorem second_run_appends_table_again
    (localeCompare : jsstring -> jsstring -> Z) (h : Host) (pr : Pull) :
  ~ contains PREVIEW_TABLE_START (body pr) ->
  (forall e, In e (fetchedFiles pr) -> ~ In 60%N (path (node e))) ->
  sentBody localeCompare h
    (mkPull (sentBody localeCompare h pr) (changedFiles pr) (files pr)) =
    body pr
    ++ [10; 10]%N
    ++ buildMarkdownPreviewTable localeCompare (payload_number (context h))
         (modifiedMarkdownPaths (fetchedFiles pr))
    ++ [10; 10]%N
    ++ buildMarkdownPreviewTable localeCompare (payload_number (context h))
         (modifiedMarkdownPaths (fetchedFiles pr)).
Proof.
  intros NB Clean. unfold sentBody.
  change (fetchedFiles (mkPull _ (changedFiles pr) (files pr)))
    with (fetchedFiles pr).
  cbn [body].
  set (table := buildMarkdownPreviewTable localeCompare
                  (payload_number (context h))
                  (modifiedMarkdownPaths (fetchedFiles pr))).
  assert (NT : ~ contains PREVIEW_TABLE_START table).
  { intros C. refine (built_table_no_lt localeCompare _ _ _ _).
    - intros file I. apply modifiedMarkdownPaths_In in I.
      destruct I as (e & I & <- & _). exact (Clean e I).
    - refine (contains_In _ _ 60%N _ C). left; reflexivity. }
  pose proof (appended_has_no_start (body pr) table NB NT) as N2.
  apply includes_false_iff in NB, N2.
  unfold updatedBodyFor at 2. rewrite NB. cbn [andb].
  unfold updatedBodyFor. rewrite N2. cbn [andb].
  unfold appendTable. rewrite <- !app_assoc. reflexivity.
Qed.

(* ================================================================== *)
(** ** These statements at concrete inputs *)

Lemma guard_iff_additive_markdown_witness :
  isPullRequestModifyingMarkdownFiles (samplePull 0) = Some false
  /\ isPullRequestModifyingMarkdownFiles
       (mkPull (lit "Adds two pages.") 3 (Some (mkFiles (Some [])))) = Some false.
Proof.
  split.
  - apply (proj1 (proj2 (proj2 (proj2
             (guard_iff_additive_markdown (samplePull 0)))))).
    simpl. lia.
  - apply (proj2 (proj2 (proj2 (proj2
             (guard_iff_additive_markdown
                (mkPull (lit "Adds two pages.") 3
                        (Some (mkFiles (Some []))))))))
             (mkFiles (Some []))); reflexivity.
Defined.

Lemma guard_agrees_with_selection_witness :
  exists paths file rest,
    getModifiedMarkdownFiles (samplePull 5) = Returns paths
    /\ In file paths
    /\ buildMarkdownPreviewTable codeUnitCompare 34443 paths =
         lit "| File | Preview |" ++ [10%N] ++ lit "|:--|:--|" ++ [10%N]
         ++ (lit "| " ++ [0xD83D; 0xDCC4]%N ++ lit " _" ++ file
             ++ lit "_ | " ++ [0xD83D; 0xDD17]%N ++ lit " [Preview: "
             ++ cutFirst (lit ".md") file
             ++ lit "](https://review.learn.microsoft.com/en-us/dotnet/"
             ++ cutFirst (lit ".md") (cutFirst (lit "docs/") file)
             ++ lit "?branch=pr-en-us-" ++ toString 34443
             ++ lit ") |" ++ [10%N])
         ++ rest.
Proof.
  apply (proj2 (guard_agrees_with_selection codeUnitCompare 34443
                  (samplePull 5))).
  reflexivity.
Defined.

Lemma run_queries_once_updates_at_most_once_witness :
  (exists rest,
     traceOf codeUnitCompare (lit "token") (sampleHost (samplePull 5)) =
       startGroup (lit "Update pull 34443 request body.")
       :: graphql (lit "docs") (lit "dotnet") 34443 :: rest
     /\ existsb isQuery rest = false
     /\ (length (filter isUpdate rest) <= 1)%nat)
  /\ traceOf codeUnitCompare [] (sampleHost (samplePull 5)) =
       [ startGroup (lit "Update pull 34443 request body.");
         warningError (Failure (lit "Parameter token or opts.auth is required"));
         endGroup ].
Proof.
  split.
  - refine (proj1 (run_queries_once_updates_at_most_once codeUnitCompare
                     (lit "token") (sampleHost (samplePull 5))) _ eq_refl).
  - refine (proj2 (run_queries_once_updates_at_most_once codeUnitCompare
                     [] (sampleHost (samplePull 5))) _ eq_refl).
Defined.

Lemma run_update_path_witness :
  traceOf codeUnitCompare (lit "token") (sampleHost (samplePull 5)) =
    [ startGroup (lit "Update pull 34443 request body.");
      graphql (lit "docs") (lit "dotnet") 34443;
      pulls_update (lit "dotnet") (lit "docs") 34443
        (updatedBodyFor (lit "Adds two pages.")
           (buildMarkdownPreviewTable codeUnitCompare 34443
              [lit "docs/b.md"; lit "docs/a.md"; lit "docs/b.md"]));
      notice (lit "Pull request updated...");
      endGroup ].
Proof.
  apply (run_update_path codeUnitCompare (lit "token")
           (sampleHost (samplePull 5))
           (mkDetails (Some (mkData (Some
              (mkRepository (Some (samplePull 5)))))))
           (samplePull 5)
           (mkNode (mkFileChange 9 ADDED 0 (lit "docs/a.md")))).
  - reflexivity.
  - reflexivity.
  - simpl. lia.
  - simpl. right. left. reflexivity.
  - left. reflexivity.
  - exists (lit "docs/a"). reflexivity.
Defined.

Lemma run_fetch_failure_witness :
  tryUpdatePullRequestBody codeUnitCompare []
    (sampleHost (samplePull 5)) [] =
    (Returns tt,
     [ startGroup (lit "Update pull 34443 request body.");
       warningError (Failure (lit "Parameter token or opts.auth is required"));
       endGroup ])
  /\ tryUpdatePullRequestBody codeUnitCompare (lit "token")
       (failingHost (Failure (lit "Bad credentials"))) [] =
    (Returns tt,
     [ startGroup (lit "Update pull 34443 request body.");
       graphql (lit "docs") (lit "dotnet") 34443;
       warningError (Failure (lit "Bad credentials"));
       endGroup ]).
Proof.
  split.
  - apply (proj1 (run_fetch_failure codeUnitCompare []
                    (sampleHost (samplePull 5))
                    (Failure (lit "Parameter token or opts.auth is required")))).
    reflexivity.
  - refine (proj2 (run_fetch_failure codeUnitCompare (lit "token")
                     (failingHost (Failure (lit "Bad credentials")))
                     (Failure (lit "Bad credentials"))) _ eq_refl eq_refl).
Defined.

Lemma run_without_pull_request_witness :
  traceOf codeUnitCompare (lit "token") (hostReplying (Returns None)) =
    [ startGroup (lit "Update pull 34443 request body.");
      graphql (lit "docs") (lit "dotnet") 34443;
      notice (lit "Unable to get the pull request from GitHub GraphQL");
      endGroup ]
  /\ traceOf codeUnitCompare (lit "token")
       (hostReplying (Returns (Some (mkDetails (Some (mkData None)))))) =
    [ startGroup (lit "Update pull 34443 request body.");
      graphql (lit "docs") (lit "dotnet") 34443;
      endGroup ].
Proof.
  split.
  - apply (proj1 (run_without_pull_request codeUnitCompare (lit "token")
                    (hostReplying (Returns None)))).
    reflexivity.
  - apply (proj2 (run_without_pull_request codeUnitCompare (lit "token")
                    (hostReplying
                       (Returns (Some (mkDetails (Some (mkData None)))))))
             (mkDetails (Some (mkData None)))); reflexivity.
Defined.

Lemma run_without_markdown_witness :
  traceOf codeUnitCompare (lit "token") (sampleHost quietPull) =
    [ startGroup (lit "Update pull 34443 request body.");
      graphql (lit "docs") (lit "dotnet") 34443;
      warning (lit "No updated markdown files...");
      endGroup ]
  /\ traceOf codeUnitCompare (lit "token") (sampleHost nullFilesPull) =
    [ startGroup (lit "Update pull 34443 request body.");
      graphql (lit "docs") (lit "dotnet") 34443;
      warningError (TypeError (lit "edges"));
      endGroup ]
  /\ traceOf codeUnitCompare (lit "token") (sampleHost nullEdgesPull) =
    [ startGroup (lit "Update pull 34443 request body.");
      graphql (lit "docs") (lit "dotnet") 34443;
      warningError (TypeError (lit "filter"));
      endGroup ].
Proof.
  split; [|split].
  - refine (proj1 (run_without_markdown codeUnitCompare (lit "token")
                     (sampleHost quietPull)
                     (mkDetails (Some (mkData (Some
                        (mkRepository (Some quietPull))))))
                     quietPull eq_refl eq_refl _) _ _ eq_refl eq_refl _).
    + simpl. lia.
    + intros e [<-|[<-|[]]] A E.
      * destruct A as [A|[A|A]]; discriminate A.
      * apply endsWith_iff in E. discriminate E.
  - refine (proj1 (proj2 (run_without_markdown codeUnitCompare (lit "token")
                     (sampleHost nullFilesPull)
                     (mkDetails (Some (mkData (Some
                        (mkRepository (Some nullFilesPull))))))
                     nullFilesPull eq_refl eq_refl _)) eq_refl).
    simpl. lia.
  - refine (proj2 (proj2 (run_without_markdown codeUnitCompare (lit "token")
                     (sampleHost nullEdgesPull)
                     (mkDetails (Some (mkData (Some
                        (mkRepository (Some nullEdgesPull))))))
                     nullEdgesPull eq_refl eq_refl _))
              (mkFiles None) eq_refl eq_refl).
    simpl. lia.
Defined.

Lemma replaced_body_keeps_sentinels_witness :
  includes (replaceExistingTable sampleBody (lit "| new |")) PREVIEW_TABLE_START
  && includes (replaceExistingTable sampleBody (lit "| new |")) PREVIEW_TABLE_END
  = true.
Proof.
  apply (replaced_body_keeps_sentinels sampleBody (lit "| new |"));
    apply includes_iff; reflexivity.
Defined.

Lemma replaceExistingTable_last_table_wins_witness :
  replaceExistingTable (replaceExistingTable sampleBody (lit "| old |"))
                       (lit "| new |") =
    replaceExistingTable sampleBody (lit "| new |")
  /\ updatedBodyFor (updatedBodyFor sampleBody (lit "| old |")) (lit "| new |") =
       updatedBodyFor sampleBody (lit "| new |").
Proof.
  apply (replaceExistingTable_last_table_wins sampleBody
           (lit "| old |") (lit "| new |"));
    apply includes_iff; reflexivity.
Defined.

Lemma updatedBodyFor_holds_table_witness :
  updatedBodyFor (lit "Intro." ++ PREVIEW_TABLE_START) (lit "| new |") =
    (lit "Intro." ++ PREVIEW_TABLE_START) ++ [10; 10]%N ++ lit "| new |".
Proof.
  apply (proj2 (proj2 (proj2 (updatedBodyFor_holds_table
                                (lit "Intro." ++ PREVIEW_TABLE_START)
                                (lit "| new |"))))).
  right. apply includes_false_iff. reflexivity.
Defined.

Lemma appended_table_is_appended_again_witness :
  updatedBodyFor (updatedBodyFor (lit "Adds two pages.") (lit "| old |"))
                 (lit "| new |") =
    lit "Adds two pages." ++ [10; 10]%N ++ lit "| old |"
    ++ [10; 10]%N ++ lit "| new |".
Proof.
  apply (appended_table_is_appended_again (lit "Adds two pages.")
           (lit "| old |") (lit "| new |"));
    apply includes_false_iff; reflexivity.
Defined.

Lemma toLink_of_docs_page_witness :
  toLink 34443 (lit "docs/" ++ lit "orleans/resources/nuget-packages"
                ++ lit ".md") =
    lit "https://review.learn.microsoft.com/en-us/dotnet/"
    ++ lit "orleans/resources/nuget-packages"
    ++ lit "?branch=pr-en-us-" ++ toString 34443
  /\ replace (lit "docs/" ++ lit "orleans/resources/nuget-packages"
              ++ lit ".md") (lit ".md") [] =
       lit "docs/" ++ lit "orleans/resources/nuget-packages".
Proof.
  apply (toLink_of_docs_page 34443 (lit "orleans/resources/nuget-packages")).
  apply search_Some. reflexivity.
Defined.

Lemma built_table_holds_no_sentinel_witness :
  ~ contains PREVIEW_TABLE_START
      (buildMarkdownPreviewTable codeUnitCompare 34443
         [lit "docs/b.md"; lit "docs/a.md"])
  /\ ~ contains PREVIEW_TABLE_END
        (buildMarkdownPreviewTable codeUnitCompare 34443
           [lit "docs/b.md"; lit "docs/a.md"]).
Proof.
  apply (built_table_holds_no_sentinel codeUnitCompare 34443
           [lit "docs/b.md"; lit "docs/a.md"]).
  intros file [<-|[<-|[]]]; apply not_In_by_evaluation; reflexivity.
Defined.

Lemma second_run_appends_table_again_witness :
  sentBody codeUnitCompare (sampleHost (samplePull 5))
    (mkPull (sentBody codeUnitCompare (sampleHost (samplePull 5))
               (samplePull 5))
            5 (files (samplePull 5))) =
    lit "Adds two pages."
    ++ [10; 10]%N
    ++ buildMarkdownPreviewTable codeUnitCompare 34443
         (modifiedMarkdownPaths (fetchedFiles (samplePull 5)))
    ++ [10; 10]%N
    ++ buildMarkdownPreviewTable codeUnitCompare 34443
         (modifiedMarkdownPaths (fetchedFiles (samplePull 5))).
Proof.
  apply (second_run_appends_table_again codeUnitCompare
           (sampleHost (samplePull 5)) (samplePull 5)).
  - apply includes_false_iff. reflexivity.
  - intros e I. apply not_In_by_evaluation.
    simpl in I.
    repeat (destruct I as [<-|I]; [reflexivity|]). destruct I.
Defined.
